(** * Underwater object detection: the detector wrapper and the white-patch
      colour balancer

    A shallow embedding of
    [src/Underwater_Image_Processing_and_Object_Detection.py]:
    [ObjectDetector.__init__] (normalisation metadata, output binding),
    [ObjectDetector._postprocess] (decoding, ranking and filtering),
    [visualize] and [whitepatch_balancing].

    Modelling conventions.
    - A Python exception is a value of [exn]; fallible code lives in the
      error monad [result].
    - Scores and class ids come out of the interpreter as floating-point
      numbers that the detector only compares and truncates; they are
      modelled as rationals ([Q]), which every finite float is.  NaN
      scores are outside the model.
    - Wherever the code computes with floats (the product of a box
      coordinate and an image side, the colour balancer, the annotation
      boxes) the arithmetic is binary64 ([PrimFloat]), the arithmetic of
      Python floats and of NumPy on [image*1.0].
    - An image buffer is a NumPy array passed by reference: [visualize] is
      modelled over a heap of buffers. *)

From Stdlib Require Import ZArith QArith Qround List Bool String Ascii Lia.
From Stdlib Require Import Permutation Sorted.
From Stdlib Require Import Floats Uint63.
Import ListNotations.

Set Implicit Arguments.
Open Scope Z_scope.

(* ------------------------------------------------------------------ *)
(** ** Exceptions and the error monad *)

Inductive exn : Type :=
| IndexError     (* list or array index out of range *)
| ValueError     (* reduction over a zero-size array, unreadable value *)
| OverflowError. (* [int] of an infinity *)

Inductive result (A : Type) : Type :=
| Ok (a : A)
| Raise (e : exn).

Arguments Ok {A} a.
Arguments Raise {A} e.

Definition bind {A B} (m : result A) (k : A -> result B) : result B :=
  match m with
  | Ok a => k a
  | Raise e => Raise e
  end.

Notation "x <- m ;; k" := (bind m (fun x => k))
  (at level 61, m at next level, right associativity).
Notation "' p <- m ;; k" := (bind m (fun x => match x with p => k end))
  (at level 61, p pattern, m at next level, right associativity).

(** [mapM f l]: apply [f] to every element, left to right, stopping at the
    first exception. *)
Fixpoint mapM {A B} (f : A -> result B) (l : list A) : result (list B) :=
  match l with
  | [] => Ok []
  | a :: l' => b <- f a ;; bs <- mapM f l' ;; Ok (b :: bs)
  end.

(** [filterM p l]: Python's [list(filter(p, l))] for a predicate that may
    raise. *)
Fixpoint filterM {A} (p : A -> result bool) (l : list A) : result (list A) :=
  match l with
  | [] => Ok []
  | a :: l' =>
      keep <- p a ;;
      rest <- filterM p l' ;;
      Ok (if keep then a :: rest else rest)
  end.

(* ------------------------------------------------------------------ *)
(** ** Python sequences *)

(** [l[i]] on a Python list (and on a one-dimensional NumPy array): a
    non-negative index counts from the front, a negative one from the
    back, anything else raises [IndexError]. *)
Definition getitem {A} (l : list A) (i : Z) : result A :=
  let n := Z.of_nat (List.length l) in
  let j := if i <? 0 then i + n else i in
  if (0 <=? j) && (j <? n) then
    match nth_error l (Z.to_nat j) with
    | Some a => Ok a
    | None => Raise IndexError
    end
  else Raise IndexError.

(** [l[start:stop]]: out-of-range bounds are clamped, negative bounds count
    from the back, an empty range gives the empty list. *)
Definition slice_bound (n i : Z) : Z :=
  if i <? 0 then Z.max 0 (i + n) else Z.min i n.

Definition slice {A} (l : list A) (start stop : Z) : list A :=
  let n := Z.of_nat (List.length l) in
  let a := slice_bound n start in
  let b := slice_bound n stop in
  firstn (Z.to_nat (b - a)) (skipn (Z.to_nat a) l).

(** [int(x)] on a float: truncation toward zero. *)
Definition py_int (x : Q) : Z := Z.quot (Qnum x) (Zpos (Qden x)).

(** [sorted]: Python's sort is stable.  [lt a b] says that [a] must come
    before [b]; an element is inserted in front of the first element that
    is not before it, so elements that compare equal keep their order.
    [sorted(..., reverse=True)] is the same sort with the comparison
    reversed (it keeps the original order of equal elements too). *)
Section Sorted.
Variable A : Type.
Variable lt : A -> A -> bool.

Fixpoint insert (x : A) (l : list A) : list A :=
  match l with
  | [] => [x]
  | y :: l' => if lt y x then y :: insert x l' else x :: y :: l'
  end.

Definition sorted (l : list A) : list A := fold_right insert [] l.
End Sorted.

(* ------------------------------------------------------------------ *)
(** ** Data model (lines 18-58) *)

Record ObjectDetectorOptions : Type := {
  enable_edgetpu : bool;
  label_allow_list : option (list string);
  label_deny_list : option (list string);
  max_results : Z;
  num_threads : Z;
  score_threshold : Q
}.

Record Rect : Type := {
  left : Z;
  top : Z;
  right : Z;
  bottom : Z
}.

Record Category : Type := {
  label : string;
  score : Q;
  index : Z
}.

Record Detection : Type := {
  bounding_box : Rect;
  categories : list Category
}.

(* ------------------------------------------------------------------ *)
(** ** [ObjectDetector.__init__]: output binding (lines 132-139) *)

Record OutputIndices : Type := {
  _OUTPUT_LOCATION_NAME : Z;
  _OUTPUT_CATEGORY_NAME : Z;
  _OUTPUT_SCORE_NAME : Z;
  _OUTPUT_NUMBER_NAME : Z
}.

(** [output_details] is the list of the ['index'] fields of
    [interpreter.get_output_details()]. *)
Definition bind_output_indices (output_details : list Z)
  : result OutputIndices :=
  let sorted_output_indices := sorted Z.ltb output_details in
  i0 <- getitem sorted_output_indices 0 ;;
  i1 <- getitem sorted_output_indices 1 ;;
  i2 <- getitem sorted_output_indices 2 ;;
  i3 <- getitem sorted_output_indices 3 ;;
  Ok {| _OUTPUT_LOCATION_NAME := i0;
        _OUTPUT_CATEGORY_NAME := i1;
        _OUTPUT_SCORE_NAME := i2;
        _OUTPUT_NUMBER_NAME := i3 |}.

(* ------------------------------------------------------------------ *)
(** ** [ObjectDetector.__init__]: normalisation metadata (lines 96-106) *)

(** One entry of [process_units]: its ['options_type'] and the ['mean'] and
    ['std'] arrays of its ['options']. *)
Record ProcessUnit : Type := {
  options_type : string;
  options_mean : list Q;
  options_std : list Q
}.

Definition is_normalization (option : ProcessUnit) : bool :=
  String.eqb (options_type option) "NormalizationOptions".

(** The [for option in process_units] loop, with [mean] and [std] as its
    state. *)
Fixpoint normalization_loop (process_units : list ProcessUnit)
    (mean std : Q) : result (Q * Q) :=
  match process_units with
  | [] => Ok (mean, std)
  | option :: rest =>
      if is_normalization option then
        m <- getitem (options_mean option) 0 ;;
        s <- getitem (options_std option) 0 ;;
        normalization_loop rest m s
      else normalization_loop rest mean std
  end.

Definition normalization (process_units : list ProcessUnit)
  : result (Q * Q) :=
  normalization_loop process_units 0%Q 1%Q.

Definition no_normalization (units : list ProcessUnit) : Prop :=
  Forall (fun u => is_normalization u = false) units.

(** The process units of a float model, for the examples. *)
Definition mobilenet_units : list ProcessUnit :=
  [ {| options_type := "ScoreThresholdingOptions";
       options_mean := []; options_std := [] |};
    {| options_type := "NormalizationOptions";
       options_mean := [255 # 2; 1]%Q; options_std := [255 # 2; 1]%Q |} ].

(* ------------------------------------------------------------------ *)
(** ** [ObjectDetector._postprocess] (lines 198-260) *)

Definition Qltb (x y : Q) : bool := negb (Qle_bool y x).

(** The integer part of a finite float. *)
Definition float_trunc (x : float) : option Z :=
  match Prim2SF x with
  | S754_zero _ => Some 0
  | S754_finite s m e =>
      let mag :=
        match e with
        | Z0 => Zpos m
        | Zpos k => Z.shiftl (Zpos m) (Zpos k)
        | Zneg k => Z.shiftr (Zpos m) (Zpos k)
        end in
      Some (if s then - mag else mag)
  | S754_infinity _ => None
  | S754_nan => None
  end.

(** The number a finite float stands for. *)
Definition float_value (x : float) : option Q :=
  match Prim2SF x with
  | S754_zero _ => Some 0%Q
  | S754_finite s m e =>
      let n := if s then Zneg m else Zpos m in
      Some (match e with
            | Z0 => inject_Z n
            | Zpos k => inject_Z (n * 2 ^ Zpos k)
            | Zneg k => n # (2 ^ k)%positive
            end)
  | S754_infinity _ => None
  | S754_nan => None
  end.

(** A Python [int] as a float, in a product or a quotient with a float.
    The ints met here are array dimensions and small constants, below
    [2^63] in size. *)
Definition float_of_int (n : Z) : float :=
  if n <? 0 then PrimFloat.opp (PrimFloat.of_uint63 (Uint63.of_Z (- n)))
  else PrimFloat.of_uint63 (Uint63.of_Z n).

(** [int(x)] on a Python float: the integer part; [ValueError] on NaN,
    [OverflowError] on an infinity. *)
Definition int_of_float (x : float) : result Z :=
  match float_trunc x with
  | Some t => Ok t
  | None => if PrimFloat.is_nan x then Raise ValueError
            else Raise OverflowError
  end.

(** The largest single-precision number. *)
Definition max_single : float := 0x1.fffffep127%float.

(** An entry of the [boxes] tensor.  The interpreter's tensors are single
    precision, and NumPy hands an entry to Python arithmetic as the double
    of the same value: a coordinate is a double within the
    single-precision range (no NaN, no infinity). *)
Record coordinate : Type := {
  coordinate_value : float;
  coordinate_range :
    PrimFloat.leb (PrimFloat.abs coordinate_value) max_single = true
}.

Definition zero_coordinate : coordinate :=
  {| coordinate_value := 0%float; coordinate_range := eq_refl |}.

(** The coordinate of a double of the single-precision range (zero for a
    double that is not a tensor entry). *)
Definition coordinate_of (x : float) : coordinate :=
  (if PrimFloat.leb (PrimFloat.abs x) max_single as b
      return (PrimFloat.leb (PrimFloat.abs x) max_single = b -> coordinate)
   then fun H => {| coordinate_value := x; coordinate_range := H |}
   else fun _ => zero_coordinate) eq_refl.

Definition box : Type := (coordinate * coordinate * coordinate * coordinate)%type.

(** [int(c * side)]: the binary64 product of a coordinate and an image
    side, then its integer part.  [int] raises on NaN and on an infinity,
    which the product of a coordinate (at most [max_single] in size) and
    an image side (below [2^63]) never is. *)
Definition pixel (c : coordinate) (side : Z) : Z :=
  match float_trunc
          (PrimFloat.mul (coordinate_value c) (float_of_int side)) with
  | Some t => t
  | None => 0
  end.

(** Lines 218-222: the [Rect] built from one row of [boxes]. *)
Definition denormalize (b : box) (image_width image_height : Z) : Rect :=
  let '(y_min, x_min, y_max, x_max) := b in
  {| top := pixel y_min image_height;
     left := pixel x_min image_width;
     bottom := pixel y_max image_height;
     right := pixel x_max image_width |}.

(** [range(count)] *)
Definition range (count : Z) : list Z :=
  map Z.of_nat (seq 0 (Z.to_nat count)).

Section Postprocess.
Variable _options : ObjectDetectorOptions.
Variable _label_list : list string.

Section Parse.
Variable boxes : list box.
Variable classes : list Q.
Variable scores : list Q.
Variable image_width image_height : Z.

(** The body of the [for i in range(count)] loop: [None] when the score
    is below the threshold, the detection otherwise. *)
Definition parse_detection (i : Z) : result (option Detection) :=
  s <- getitem scores i ;;
  if Qle_bool (score_threshold _options) s then
    b <- getitem boxes i ;;
    let bounding_box := denormalize b image_width image_height in
    c <- getitem classes i ;;
    let class_id := py_int c in
    s' <- getitem scores i ;;
    l <- getitem _label_list class_id ;;
    let category := {| score := s'; label := l; index := class_id |} in
    Ok (Some {| bounding_box := bounding_box;
                categories := [category] |})
  else Ok None.

Fixpoint parse_loop (range : list Z) (results : list Detection)
  : result (list Detection) :=
  match range with
  | [] => Ok results
  | i :: range' =>
      r <- parse_detection i ;;
      parse_loop range'
        (match r with
         | Some d => results ++ [d]
         | None => results
         end)
  end.

(** Lines 212-231. *)
Definition parse_outputs (count : Z) : result (list Detection) :=
  parse_loop (range count) [].
End Parse.

(** [detection.categories[0]] and the two lambdas built on it. *)
Definition first_category (detection : Detection) : result Category :=
  getitem (categories detection) 0.

Definition score_key (detection : Detection) : result Q :=
  c <- first_category detection ;; Ok (score c).

Definition label_in (l : list string) (detection : Detection)
  : result bool :=
  c <- first_category detection ;;
  Ok (existsb (String.eqb (label c)) l).

Definition label_not_in (l : list string) (detection : Detection)
  : result bool :=
  c <- first_category detection ;;
  Ok (negb (existsb (String.eqb (label c)) l)).

(** Lines 234-237: [sorted(results, key=..., reverse=True)].  The key of
    every element is computed first, then the elements are sorted by
    key, larger keys first. *)
Definition sort_by_score (results : list Detection)
  : result (list Detection) :=
  keyed <- mapM (fun d => k <- score_key d ;; Ok (k, d)) results ;;
  Ok (map snd (sorted (fun a b => Qltb (fst b) (fst a)) keyed)).

(** Lines 233-260. *)
Definition rank (results : list Detection) : result (list Detection) :=
  sorted_results <- sort_by_score results ;;
  filtered_results <-
    match label_deny_list _options with
    | Some deny => filterM (label_not_in deny) sorted_results
    | None => Ok sorted_results
    end ;;
  filtered_results <-
    match label_allow_list _options with
    | Some allow => filterM (label_in allow) filtered_results
    | None => Ok filtered_results
    end ;;
  if 0 <? max_results _options then
    let result_count :=
      Z.min (Z.of_nat (List.length filtered_results))
            (max_results _options) in
    Ok (slice filtered_results 0 result_count)
  else Ok filtered_results.

Definition _postprocess (boxes : list box) (classes scores : list Q)
    (count image_width image_height : Z) : result (list Detection) :=
  results <- parse_outputs boxes classes scores
               image_width image_height count ;;
  rank results.
End Postprocess.

(** Index [i] clears the threshold: [scores[i] >= score_threshold]. *)
Definition above_threshold (o : ObjectDetectorOptions) (scores : list Q)
    (i : Z) : bool :=
  match getitem scores i with
  | Ok s => Qle_bool (score_threshold o) s
  | Raise _ => false
  end.

(** [d] is the detection built from row [i] of the output tensors. *)
Definition emitted (o : ObjectDetectorOptions) (labels : list string)
    (boxes : list box) (classes scores : list Q)
    (image_width image_height : Z) (i : Z) (d : Detection) : Prop :=
  exists s b c l,
    getitem scores i = Ok s /\
    Qle_bool (score_threshold o) s = true /\
    getitem boxes i = Ok b /\
    getitem classes i = Ok c /\
    getitem labels (py_int c) = Ok l /\
    d = {| bounding_box := denormalize b image_width image_height;
           categories := [ {| label := l; score := s; index := py_int c |} ] |}.

(** The output tensors hold [count] rows, and every row that clears the
    threshold names a class the label list can be indexed with. *)
Definition well_formed_outputs (o : ObjectDetectorOptions)
    (labels : list string) (boxes : list box) (classes scores : list Q)
    (count : Z) : Prop :=
  forall i, 0 <= i < count ->
    exists s b c,
      getitem scores i = Ok s /\
      getitem boxes i = Ok b /\
      getitem classes i = Ok c /\
      (Qle_bool (score_threshold o) s = true ->
       exists l, getitem labels (py_int c) = Ok l).


(** The data of the examples: two labels, three output rows. *)
Definition fish_shark : list string := ["fish"; "shark"]%string.

Definition options_with (threshold : Q) (deny allow : option (list string))
    (n : Z) : ObjectDetectorOptions :=
  {| enable_edgetpu := false;
     label_allow_list := allow;
     label_deny_list := deny;
     max_results := n;
     num_threads := 8;
     score_threshold := threshold |}.

(** The box [[0.1, 0.2, 0.5, 0.6]]: the doubles nearest to the four
    decimals, and the single-precision numbers nearest to them. *)
Definition tenths_box : box :=
  (coordinate_of 0x1.999999999999ap-4, coordinate_of 0x1.999999999999ap-3,
   coordinate_of 0x1p-1, coordinate_of 0x1.3333333333333p-1).


(** The box [[0, 0, 1, 1]] of the whole image and the box
    [[0.25, 0.25, 0.75, 0.75]] of its centre. *)
Definition whole_image_box : box :=
  (coordinate_of 0, coordinate_of 0, coordinate_of 1, coordinate_of 1).

Definition centre_box : box :=
  (coordinate_of 0x1p-2, coordinate_of 0x1p-2,
   coordinate_of 0x1.8p-1, coordinate_of 0x1.8p-1).

Definition example_boxes : list box :=
  [tenths_box; whole_image_box; centre_box].

(** The doubles nearest to 1/3 and to 0.7. *)
Definition third : coordinate := coordinate_of 0x1.5555555555555p-2.
Definition seven_tenths : coordinate := coordinate_of 0x1.6666666666666p-1.

Definition detection_of (l : string) (s : Q) (i : Z) : Detection :=
  {| bounding_box := {| left := 0; top := 0; right := 1; bottom := 1 |};
     categories := [ {| label := l; score := s; index := i |} ] |}.

(** The four stages of the ranking pipeline as the specification words
    them, on detections that carry their single best category.  They are
    compared with [rank] below. *)
Definition top_score (d : Detection) : Q :=
  match categories d with
  | c :: _ => score c
  | [] => 0%Q
  end.

Definition top_label (d : Detection) : string :=
  match categories d with
  | c :: _ => label c
  | [] => EmptyString
  end.

Definition higher_score (a b : Detection) : bool :=
  Qltb (top_score b) (top_score a).

Definition sort_stage (ds : list Detection) : list Detection :=
  sorted higher_score ds.

Definition deny_stage (o : ObjectDetectorOptions) (ds : list Detection)
  : list Detection :=
  match label_deny_list o with
  | Some deny =>
      filter (fun d => negb (existsb (String.eqb (top_label d)) deny)) ds
  | None => ds
  end.

Definition allow_stage (o : ObjectDetectorOptions) (ds : list Detection)
  : list Detection :=
  match label_allow_list o with
  | Some allow => filter (fun d => existsb (String.eqb (top_label d)) allow) ds
  | None => ds
  end.

Definition truncate_stage (o : ObjectDetectorOptions) (ds : list Detection)
  : list Detection :=
  if 0 <? max_results o then firstn (Z.to_nat (max_results o)) ds else ds.

(** [s] is [l] sorted by non-increasing score, equal scores in their
    original order. *)
Definition stable_descending (l s : list Detection) : Prop :=
  Permutation l s /\
  StronglySorted (fun a b => (top_score b <= top_score a)%Q) s /\
  forall q : Q,
    filter (fun d => Qeq_bool (top_score d) q) s =
    filter (fun d => Qeq_bool (top_score d) q) l.

Definition single_category (d : Detection) : Prop :=
  List.length (categories d) = 1%nat.

(* ------------------------------------------------------------------ *)
(** ** [visualize] (lines 263-299) *)

(** An image is a height x width x channels array of 8-bit values. *)
Definition ndarray : Type := list (list (list Z)).

(** NumPy arrays are passed by reference: the heap holds the buffers and a
    reference is a position in it. *)
Definition heap : Type := list ndarray.
Definition ref : Type := nat.

Fixpoint update_at {A} (l : list A) (n : nat) (f : A -> A) : list A :=
  match l, n with
  | [], _ => []
  | a :: l', O => f a :: l'
  | a :: l', S n' => a :: update_at l' n' f
  end.

(** The buffer behind [r] is overwritten with [f] of its contents. *)
Definition modify (h : heap) (r : ref) (f : ndarray -> ndarray) : heap :=
  update_at h r f.

Definition color : Type := (Z * Z * Z)%type.
Definition point : Type := (Z * Z)%type.

Definition _MARGIN : Z := 10.
Definition _ROW_SIZE : Z := 10.
Definition _FONT_SIZE : Z := 1.
Definition _FONT_THICKNESS : Z := 1.
Definition FONT_HERSHEY_PLAIN : Z := 1.

Section Visualize.
(** The drawing primitives are OpenCV's; each paints on the array it is
    given.  [cv2_rectangle a pt1 pt2 color thickness] and
    [cv2_putText a text org fontFace fontScale color thickness] are the
    contents of [a] after the call.  [str_round2 x] is
    [str(round(x, 2))]. *)
Variable cv2_rectangle : ndarray -> point -> point -> color -> Z -> ndarray.
Variable cv2_putText :
  ndarray -> string -> point -> Z -> Z -> color -> Z -> ndarray.
Variable str_round2 : Q -> string.

(** What one iteration of the loop paints on an array. *)
Definition draw_box (detection : Detection) (box_color : color)
    (a : ndarray) : ndarray :=
  let start_point :=
    (left (bounding_box detection), top (bounding_box detection)) in
  let end_point :=
    (right (bounding_box detection), bottom (bounding_box detection)) in
  cv2_rectangle a start_point end_point box_color 2.

Definition draw_label (detection : Detection) (category : Category)
    (text_color : color) (a : ndarray) : ndarray :=
  let class_name := label category in
  let probability := str_round2 (score category) in
  let result_text := (class_name ++ " (" ++ probability ++ ")")%string in
  let text_location :=
    (_MARGIN + left (bounding_box detection),
     _MARGIN + _ROW_SIZE + top (bounding_box detection)) in
  cv2_putText a result_text text_location FONT_HERSHEY_PLAIN
    _FONT_SIZE text_color _FONT_THICKNESS.

(** The [for detection in detections] loop on the buffer [image] of the
    heap [h]: the heap afterwards, and whether the loop raised. *)
Fixpoint visualize_loop (h : heap) (image : ref)
    (detections : list Detection) (text_color box_color : color)
  : heap * result unit :=
  match detections with
  | [] => (h, Ok tt)
  | detection :: rest =>
      let h1 := modify h image (draw_box detection box_color) in
      match getitem (categories detection) 0 with
      | Raise e => (h1, Raise e)
      | Ok category =>
          let h2 :=
            modify h1 image (draw_label detection category text_color) in
          visualize_loop h2 image rest text_color box_color
      end
  end.

(** [visualize]: the heap after the call, and the reference returned
    ([return image]). *)
Definition visualize (h : heap) (image : ref)
    (detections : list Detection) (text_color box_color : color)
  : heap * result ref :=
  let (h', r) := visualize_loop h image detections text_color box_color in
  (h', _ <- r ;; Ok image).

(** Everything the loop paints on one array, for detections that carry a
    category. *)
Fixpoint paint (detections : list Detection) (text_color box_color : color)
    (a : ndarray) : ndarray :=
  match detections with
  | [] => a
  | detection :: rest =>
      let a1 := draw_box detection box_color a in
      let a2 :=
        match categories detection with
        | category :: _ => draw_label detection category text_color a1
        | [] => a1
        end in
      paint rest text_color box_color a2
  end.
End Visualize.

(** Stand-ins for the OpenCV primitives, to run [visualize] on concrete
    data: of a rectangle they paint the two corner points given, of a text
    its origin. *)
Definition set_pixel (a : ndarray) (pt : point) (c : color) : ndarray :=
  let '(x, y) := pt in
  let '(r, g, b) := c in
  if (0 <=? x) && (0 <=? y) then
    update_at a (Z.to_nat y)
      (fun row => update_at row (Z.to_nat x) (fun _ => [r; g; b]))
  else a.

Definition corners_rectangle (a : ndarray) (pt1 pt2 : point) (c : color)
    (thickness : Z) : ndarray :=
  set_pixel (set_pixel a pt1 c) pt2 c.

Definition origin_putText (a : ndarray) (text : string) (org : point)
    (fontFace fontScale : Z) (c : color) (thickness : Z) : ndarray :=
  set_pixel a org c.

Definition black_2x2 : ndarray :=
  [ [ [0; 0; 0]; [0; 0; 0] ];
    [ [0; 0; 0]; [0; 0; 0] ] ].

Definition unit_detection : Detection :=
  {| bounding_box := {| left := 0; top := 0; right := 1; bottom := 1 |};
     categories := [ {| label := "fish"; score := 9 # 10; index := 0 |} ] |}.

(* ------------------------------------------------------------------ *)
(** ** [whitepatch_balancing] (lines 339-347) *)

(** [image[from_row:from_row+row_width, from_column:from_column+column_width]] *)
Definition image_patch (image : ndarray)
    (from_row from_column row_width column_width : Z) : ndarray :=
  map (fun row => slice row from_column (from_column + column_width))
      (slice image from_row (from_row + row_width)).

Definition pointwise_max (a b : list Z) : list Z :=
  map (fun xy => Z.max (fst xy) (snd xy)) (combine a b).

(** [a.max(axis=(0, 1))]: the maximum of every channel over all the pixels
    of [a]; NumPy raises [ValueError] on an array without pixels. *)
Definition max_axis01 (a : ndarray) : result (list Z) :=
  match List.concat a with
  | [] => Raise ValueError
  | px :: rest => Ok (fold_left pointwise_max rest px)
  end.

(** An 8-bit value as a binary64 float. *)
Definition to_float (z : Z) : float := PrimFloat.of_uint63 (Uint63.of_Z z).

(** [image*1.0 / m] on one entry. *)
Definition true_divide (p m : Z) : float :=
  PrimFloat.div (to_float p) (to_float m).

(** [x.clip(0, 1)] on one entry; a NaN compares false both ways and stays. *)
Definition clip01 (x : float) : float :=
  if PrimFloat.ltb x 0%float then 0%float
  else if PrimFloat.ltb 1%float x then 1%float
  else x.

(** [x.astype(np.uint8)] on one entry: the integer part when it fits in 8
    bits; the conversion of NaN, of an infinity and of a value out of range
    is left undefined by C and by NumPy ([None]). *)
Definition astype_uint8 (x : float) : option Z :=
  match float_trunc x with
  | Some t => if (0 <=? t) && (t <? 256) then Some t else None
  | None => None
  end.

Definition broadcast {B} (f : Z -> Z -> B) (image : ndarray) (m : list Z)
  : list (list (list B)) :=
  map (map (fun px => map (fun pm => f (fst pm) (snd pm)) (combine px m)))
      image.

(** Line 342: [image_max]. *)
Definition image_max (image : ndarray)
    (from_row from_column row_width column_width : Z)
  : result (list (list (list float))) :=
  m <- max_axis01 (image_patch image from_row from_column
                     row_width column_width) ;;
  Ok (broadcast (fun p d => clip01 (true_divide p d)) image m).

(** Line 343: the array behind [white_balanc_image], the first component of
    the pair returned.  (The second component is the same array after
    Pillow's sharpening, which is not modelled.) *)
Definition whitepatch_balancing (image : ndarray)
    (from_row from_column row_width column_width : Z)
  : result (list (list (list (option Z)))) :=
  image_max <- image_max image from_row from_column
                 row_width column_width ;;
  Ok (map (map (map (fun x => astype_uint8 (PrimFloat.mul x 255%float))))
        image_max).

(** One entry of the balanced image, from the pixel value [p] and the patch
    maximum [m] of its channel. *)
Definition balance_entry (p m : Z) : option Z :=
  astype_uint8 (PrimFloat.mul (clip01 (true_divide p m)) 255%float).

(** The same entry in exact integer arithmetic: [255*p/m] cut at 255 and
    truncated; with a zero maximum, 255 for a positive value and nothing
    defined for zero. *)
Definition balance_exact (p m : Z) : option Z :=
  if m =? 0 then (if p =? 0 then None else Some 255)
  else Some (Z.min 255 (255 * p / m)).

(** The entry as the specification words it: scaled back to 8 bits and
    rounded to the nearest integer. *)
Definition balance_rounded (p m : Z) : Z :=
  Z.min 255 ((2 * 255 * p + m) / (2 * m)).

Definition uint8 (z : Z) : Prop := 0 <= z < 256.

Definition uint8_image (image : ndarray) : Prop :=
  Forall (Forall (Forall uint8)) image.

(** Every pixel of the image has [n] channels. *)
Definition channels (n : nat) (image : ndarray) : Prop :=
  Forall (Forall (fun px => List.length px = n)) image.

(** [m] holds, channel by channel, the largest value found in [pixels]. *)
Definition is_channel_max (pixels : list (list Z)) (m : list Z) : Prop :=
  forall k, (k < List.length m)%nat ->
    (forall px, In px pixels -> nth k px 0 <= nth k m 0) /\
    (exists px, In px pixels /\ nth k px 0 = nth k m 0).

(** The 256 values of an 8-bit channel, and the two checks that run the
    float arithmetic over all of them. *)
Definition uint8_values : list Z := map Z.of_nat (seq 0 256).

Definition option_Z_eqb (a b : option Z) : bool :=
  match a, b with
  | Some x, Some y => x =? y
  | None, None => true
  | _, _ => false
  end.

Definition balance_agrees : bool :=
  forallb (fun m =>
    forallb (fun p => option_Z_eqb (balance_entry p m) (balance_exact p m))
            uint8_values)
    uint8_values.

(** What dividing the value [p] by a zero maximum gives: NaN for zero,
    plus infinity otherwise, clipped to NaN and to 1.0. *)
Definition zero_divisor_entry (p : Z) : bool :=
  let q := true_divide p 0 in
  if p =? 0 then
    PrimFloat.is_nan q && PrimFloat.is_nan (clip01 q)
  else
    PrimFloat.eqb q infinity && PrimFloat.eqb (clip01 q) 1%float.

(** A 1 x 2 image whose first pixel has no red. *)
Definition no_red_patch_image : ndarray := [ [ [0; 10; 20]; [7; 30; 40] ] ].

Definition sevens_image : ndarray := [ [ [2; 7; 7]; [7; 7; 7] ] ].

(* ------------------------------------------------------------------ *)
(** ** [ObjectDetector.__init__]: the label list (lines 109-114) *)

(** A decoded text is a sequence of Unicode code points. *)
Definition text : Type := list N.

(** The line boundaries of [str.splitlines]: LF, CR, VT, FF, FS, GS, RS,
    NEL, LINE SEPARATOR and PARAGRAPH SEPARATOR (CR LF counts as one). *)
Definition is_linebreak (c : N) : bool :=
  ((c =? 10) || (c =? 13) || (c =? 11) || (c =? 12) || (c =? 28) ||
   (c =? 29) || (c =? 30) || (c =? 133) || (c =? 8232) || (c =? 8233))%N.

(** [str.splitlines()]: [acc] holds the characters of the line being
    read, last first.  A boundary ends the line, be it empty; a CR LF
    pair is consumed together; text left after the last boundary is a
    line, and nothing follows a final boundary. *)
Fixpoint splitlines_go (acc : text) (s : text) : list text :=
  match s with
  | [] =>
      match acc with
      | [] => []
      | _ :: _ => [rev acc]
      end
  | c :: s' =>
      if is_linebreak c then
        rev acc ::
        match s' with
        | c' :: s'' =>
            if ((c =? 13) && (c' =? 10))%N then splitlines_go [] s''
            else splitlines_go [] s'
        | [] => []
        end
      else splitlines_go (c :: acc) s'
  end.

Definition splitlines (s : text) : list text := splitlines_go [] s.

(** Lines 112-113: [list(filter(lambda x: len(x) > 0, ...splitlines()))]. *)
Definition label_list_of (label_map_file : text) : list text :=
  filter (fun x => (0 <? List.length x)%nat) (splitlines label_map_file).

(** The pieces of [s] between separators, empty pieces left out. *)
Fixpoint fields_go (sep : N -> bool) (acc : text) (s : text) : list text :=
  match s with
  | [] =>
      match acc with
      | [] => []
      | _ :: _ => [rev acc]
      end
  | c :: s' =>
      if sep c then
        match acc with
        | [] => fields_go sep [] s'
        | _ :: _ => rev acc :: fields_go sep [] s'
        end
      else fields_go sep (c :: acc) s'
  end.

(** A piece: not empty, and free of separators. *)
Definition piece (sep : N -> bool) (l : text) : Prop :=
  l <> [] /\ Forall (fun c => sep c = false) l.

(** A run of separators, at least one. *)
Definition separators (sep : N -> bool) (t : text) : Prop :=
  t <> [] /\ Forall (fun c => sep c = true) t.

(** A label file: every label followed by its line ending. *)
Definition write_labels (entries : list (text * text)) : text :=
  List.concat (map (fun e => fst e ++ snd e) entries).

(* ------------------------------------------------------------------ *)
(** ** [convert_annotation] (data_process.py, lines 8-59) *)

(** The characters [str.split()] takes for white space. *)
Definition is_space (c : N) : bool :=
  (((9 <=? c) && (c <=? 13)) || ((28 <=? c) && (c <=? 32)) ||
   (c =? 133) || (c =? 160) || (c =? 5760) ||
   ((8192 <=? c) && (c <=? 8202)) || (c =? 8232) || (c =? 8233) ||
   (c =? 8239) || (c =? 8287) || (c =? 12288))%N.

(** [line.split()]: the runs of characters that are not white space. *)
Definition split (line : text) : list text := fields_go is_space [] line.

Definition img_height : Z := 360.
Definition img_width : Z := 480.

(** The shape of [cv2.resize(img, dsize)] for a colour image: [dsize] is
    (width, height), a shape is (rows, columns, channels). *)
Definition resized_shape (dsize : Z * Z) : Z * Z * Z :=
  (snd dsize, fst dsize, 3).

(** Lines 19-20: [image_width, image_height, _ = img.shape] after the
    resize to [(img_height, img_width)]. *)
Definition annotation_size : Z * Z :=
  let '(image_width, image_height, _) :=
    resized_shape (img_height, img_width) in
  (image_width, image_height).

Record VocObject : Type := {
  name : string;
  xmin : Z;
  ymin : Z;
  xmax : Z;
  ymax : Z
}.

Section ConvertAnnotation.
(** [float(s)] and [int(s)] on a field of the line; each raises
    [ValueError] on a field it cannot read. *)
Variable float : text -> result PrimFloat.float.
Variable int : text -> result Z.
Variable class_names : list string.

(** The body of the [for line in lines] loop; the four pixel coordinates
    are computed in binary64, line by line, each ending in [int]. *)
Definition convert_line (line : text) : result VocObject :=
  match split line with
  | [class_id; x_center; y_center; width; height] =>
      let image_width := float_of_int (fst annotation_size) in
      let image_height := float_of_int (snd annotation_size) in
      let half x := PrimFloat.div x (float_of_int 2) in
      i <- int class_id ;;
      class_name <- getitem class_names i ;;
      xc <- float x_center ;;
      w <- float width ;;
      x_min <- int_of_float
                 (PrimFloat.mul (PrimFloat.sub xc (half w)) image_width) ;;
      yc <- float y_center ;;
      h <- float height ;;
      y_min <- int_of_float
                 (PrimFloat.mul (PrimFloat.sub yc (half h)) image_height) ;;
      x_max <- int_of_float
                 (PrimFloat.mul (PrimFloat.add xc (half w)) image_width) ;;
      y_max <- int_of_float
                 (PrimFloat.mul (PrimFloat.add yc (half h)) image_height) ;;
      Ok {| name := class_name;
            xmin := x_min; ymin := y_min; xmax := x_max; ymax := y_max |}
  | _ => Raise ValueError
  end.

(** The size written and the objects, one per line; nothing is written
    when a line raises. *)
Definition convert_annotation (lines : list text)
  : result (Z * Z * list VocObject) :=
  objects <- mapM convert_line lines ;;
  Ok (fst annotation_size, snd annotation_size, objects).
End ConvertAnnotation.

(** Readers of plain decimal numerals ([12], [0.25]); they stand in for
    [int] and [float] when the conversion is run on concrete lines.  A
    numeral of at most fifteen digits is read as [float] reads it: the
    quotient of two integers that are doubles is the nearest double. *)
Definition is_digit (c : N) : bool := ((48 <=? c) && (c <=? 57))%N.

Fixpoint decimal_go (dot digit : bool) (num : Z) (den : positive)
    (s : text) : result Q :=
  match s with
  | [] => if digit then Ok (num # den) else Raise ValueError
  | c :: s' =>
      if (c =? 46)%N then
        if dot then Raise ValueError
        else decimal_go true digit num den s'
      else if is_digit c then
        decimal_go dot true (10 * num + Z.of_N (c - 48))
          (if dot then 10 * den else den)%positive s'
      else Raise ValueError
  end.

Definition decimal_float (s : text) : result float :=
  q <- decimal_go false false 0 1 s ;;
  Ok (PrimFloat.div (float_of_int (Qnum q)) (float_of_int (Zpos (Qden q)))).

Definition decimal_int (s : text) : result Z :=
  if forallb is_digit s then
    q <- decimal_go false false 0 1 s ;; Ok (Qnum q)
  else Raise ValueError.

Definition text_of (s : string) : text :=
  map N_of_ascii (list_ascii_of_string s).

Definition marine_names : list string :=
  ["fish"; "jellyfish"; "penguin"; "puffin"; "shark"; "starfish";
   "stingray"]%string.

(** The normalisation arrays of a unit can both be read. *)
Definition readable_unit (u : ProcessUnit) : Prop :=
  is_normalization u = true ->
  options_mean u <> [] /\ options_std u <> [].

(* ================================================================== *)
(** * Properties *)

(* ------------------------------------------------------------------ *)
(** ** The error monad and Python indexing *)

Lemma bind_Ok_inv {A B} (m : result A) (k : A -> result B) (b : B) :
  bind m k = Ok b -> exists a, m = Ok a /\ k a = Ok b.
Proof.
  destruct m as [a|e]; simpl; intros H; [eauto | discriminate].
Qed.

Lemma getitem_nonneg {A} (l : list A) (i : Z) :
  0 <= i ->
  getitem l i =
  match nth_error l (Z.to_nat i) with
  | Some a => Ok a
  | None => Raise IndexError
  end.
Proof.
  intros Hi. unfold getitem.
  destruct (i <? 0) eqn:Hneg; [apply Z.ltb_lt in Hneg; lia|].
  destruct ((0 <=? i) && (i <? Z.of_nat (List.length l))) eqn:Hin; [reflexivity|].
  destruct (nth_error l (Z.to_nat i)) eqn:Hn; [|reflexivity].
  assert (Hlt : (Z.to_nat i < List.length l)%nat)
    by (apply nth_error_Some; congruence).
  apply andb_false_iff in Hin.
  destruct Hin as [Hin|Hin]; [apply Z.leb_gt in Hin | apply Z.ltb_ge in Hin]; lia.
Qed.

Lemma getitem_of_nat {A} (l : list A) (n : nat) :
  getitem l (Z.of_nat n) =
  match nth_error l n with
  | Some a => Ok a
  | None => Raise IndexError
  end.
Proof.
  rewrite getitem_nonneg by lia. now rewrite Nat2Z.id.
Qed.

Lemma getitem_negative {A} (l : list A) (i : Z) :
  i < 0 ->
  getitem l i =
  if 0 <=? i + Z.of_nat (List.length l) then
    match nth_error l (Z.to_nat (i + Z.of_nat (List.length l))) with
    | Some a => Ok a
    | None => Raise IndexError
    end
  else Raise IndexError.
Proof.
  intros Hi. unfold getitem.
  assert (Hneg : (i <? 0) = true) by (apply Z.ltb_lt; lia).
  rewrite Hneg.
  assert (Hlt : (i + Z.of_nat (List.length l) <? Z.of_nat (List.length l)) = true)
    by (apply Z.ltb_lt; lia).
  rewrite Hlt, andb_true_r. reflexivity.
Qed.

Lemma getitem_only_IndexError {A} (l : list A) (i : Z) (e : exn) :
  getitem l i = Raise e -> e = IndexError.
Proof.
  unfold getitem.
  destruct ((0 <=? _) && _); [destruct (nth_error _ _)|]; congruence.
Qed.

Lemma getitem_out_of_range {A} (l : list A) (i : Z) :
  Z.of_nat (List.length l) <= i \/ i < - Z.of_nat (List.length l) ->
  getitem l i = Raise IndexError.
Proof.
  intros H. unfold getitem.
  destruct (i <? 0) eqn:Hneg.
  - apply Z.ltb_lt in Hneg.
    assert (H0 : (0 <=? i + Z.of_nat (List.length l)) = false)
      by (apply Z.leb_gt; lia).
    now rewrite H0.
  - apply Z.ltb_ge in Hneg.
    assert (H0 : (i <? Z.of_nat (List.length l)) = false)
      by (apply Z.ltb_ge; lia).
    now rewrite H0, andb_false_r.
Qed.

Lemma slice_prefix {A} (l : list A) (n : Z) :
  0 <= n -> slice l 0 n = firstn (Z.to_nat n) l.
Proof.
  intros Hn. unfold slice.
  assert (Ha : slice_bound (Z.of_nat (List.length l)) 0 = 0)
    by (unfold slice_bound; simpl; lia).
  assert (Hb : slice_bound (Z.of_nat (List.length l)) n =
               Z.min n (Z.of_nat (List.length l))).
  { unfold slice_bound.
    destruct (n <? 0) eqn:Hneg; [apply Z.ltb_lt in Hneg; lia | reflexivity]. }
  rewrite Ha, Hb, Z.sub_0_r. simpl skipn.
  destruct (Z.le_ge_cases n (Z.of_nat (List.length l))) as [Hle|Hge].
  - now rewrite Z.min_l by lia.
  - rewrite Z.min_r by lia. rewrite Nat2Z.id.
    rewrite firstn_all. symmetry. apply firstn_all2. lia.
Qed.

(* ------------------------------------------------------------------ *)
(** ** [sorted] is a stable sort *)

Section SortedFacts.
Variable A : Type.
Variable lt : A -> A -> bool.

Lemma insert_perm (x : A) (l : list A) :
  Permutation (x :: l) (insert lt x l).
Proof.
  induction l as [|y l IH]; simpl; [reflexivity|].
  destruct (lt y x); [|reflexivity].
  rewrite perm_swap. now constructor.
Qed.

Lemma sorted_perm (l : list A) : Permutation l (sorted lt l).
Proof.
  induction l as [|x l IH]; simpl; [constructor|].
  rewrite <- insert_perm. now constructor.
Qed.

Lemma sorted_length (l : list A) :
  List.length (sorted lt l) = List.length l.
Proof. symmetry. apply Permutation_length, sorted_perm. Qed.

(** Elements that are pairwise not before one another keep their
    order. *)
Lemma filter_insert (p : A -> bool) (x : A) (l : list A) :
  (forall a b, p a = true -> p b = true -> lt a b = false) ->
  filter p (insert lt x l) = filter p (x :: l).
Proof.
  intros Heq. induction l as [|y l IH]; [reflexivity|].
  simpl. destruct (lt y x) eqn:Hyx; [|reflexivity].
  simpl. rewrite IH. simpl.
  destruct (p y) eqn:Hy, (p x) eqn:Hx; try reflexivity.
  rewrite (Heq y x Hy Hx) in Hyx. discriminate.
Qed.

Lemma sorted_stable (p : A -> bool) (l : list A) :
  (forall a b, p a = true -> p b = true -> lt a b = false) ->
  filter p (sorted lt l) = filter p l.
Proof.
  intros Heq. induction l as [|x l IH]; [reflexivity|].
  simpl sorted. rewrite filter_insert by assumption.
  simpl. now rewrite IH.
Qed.

Hypothesis lt_asym : forall a b, lt a b = true -> lt b a = false.
Hypothesis le_trans :
  forall a b c, lt b a = false -> lt c b = false -> lt c a = false.

Lemma insert_sorted (x : A) (l : list A) :
  StronglySorted (fun a b => lt b a = false) l ->
  StronglySorted (fun a b => lt b a = false) (insert lt x l).
Proof.
  induction l as [|y l IH]; intros Hs; simpl.
  - repeat constructor.
  - apply StronglySorted_inv in Hs. destruct Hs as [Hl Hy].
    destruct (lt y x) eqn:Hyx.
    + constructor; [now apply IH|].
      apply (Permutation_Forall (insert_perm x l)).
      constructor; [now apply lt_asym | assumption].
    + constructor; [now constructor|].
      constructor; [exact Hyx|].
      eapply Forall_impl; [|exact Hy].
      intros z Hz. now apply le_trans with y.
Qed.

Lemma sorted_sorted (l : list A) :
  StronglySorted (fun a b => lt b a = false) (sorted lt l).
Proof.
  induction l as [|x l IH]; simpl; [constructor | now apply insert_sorted].
Qed.
End SortedFacts.

Lemma sorted_ltb_ascending (l : list Z) :
  StronglySorted Z.le (sorted Z.ltb l).
Proof.
  assert (H : StronglySorted (fun a b => (b <? a) = false) (sorted Z.ltb l)).
  { apply sorted_sorted.
    - intros a b Hab. apply Z.ltb_lt in Hab. apply Z.ltb_ge. lia.
    - intros a b c Hba Hcb. apply Z.ltb_ge in Hba, Hcb. apply Z.ltb_ge. lia. }
  induction H as [|a s Hs IH Ha]; constructor; [assumption|].
  eapply Forall_impl; [|exact Ha].
  intros b Hb. now apply Z.ltb_ge in Hb.
Qed.

(* ------------------------------------------------------------------ *)
(** ** Output binding *)

Lemma getitem_cons_0 {A} (a : A) (l : list A) : getitem (a :: l) 0 = Ok a.
Proof. now rewrite getitem_nonneg by lia. Qed.

(** C4 (as amended).  Binding the outputs raises [IndexError] exactly when
    the model exposes fewer than four outputs.  With four or more, the
    output indices are sorted ascending and the four smallest are bound, in
    that order, to location, category, score and number of detections; any
    further output is ignored. *)
Theorem bind_output_indices_four_smallest (output_details : list Z) :
  (bind_output_indices output_details = Raise IndexError <->
   (List.length output_details < 4)%nat) /\
  ((4 <= List.length output_details)%nat ->
   exists i0 i1 i2 i3 rest,
     sorted Z.ltb output_details = i0 :: i1 :: i2 :: i3 :: rest /\
     Permutation output_details (i0 :: i1 :: i2 :: i3 :: rest) /\
     StronglySorted Z.le (i0 :: i1 :: i2 :: i3 :: rest) /\
     bind_output_indices output_details =
     Ok {| _OUTPUT_LOCATION_NAME := i0;
           _OUTPUT_CATEGORY_NAME := i1;
           _OUTPUT_SCORE_NAME := i2;
           _OUTPUT_NUMBER_NAME := i3 |}).
Proof.
  pose proof (sorted_length Z.ltb output_details) as Hlen.
  pose proof (sorted_perm Z.ltb output_details) as Hperm.
  pose proof (sorted_ltb_ascending output_details) as Hsort.
  unfold bind_output_indices.
  destruct (sorted Z.ltb output_details) as [|i0 [|i1 [|i2 [|i3 rest]]]];
    simpl in Hlen; rewrite <- Hlen.
  1-4: split; [split; [intros _; lia|intros _] | intros H4; lia];
       rewrite ?getitem_cons_0; unfold bind;
       rewrite !getitem_nonneg by lia; reflexivity.
  split.
  - rewrite !getitem_nonneg by lia. simpl. split; [discriminate | lia].
  - intros _. exists i0, i1, i2, i3, rest.
    repeat split; try assumption.
    rewrite !getitem_nonneg by lia. reflexivity.
Qed.

Lemma bind_output_indices_four_smallest_witness :
  exists i0 i1 i2 i3 rest,
    sorted Z.ltb [601; 599; 600; 598] = i0 :: i1 :: i2 :: i3 :: rest /\
    Permutation [601; 599; 600; 598] (i0 :: i1 :: i2 :: i3 :: rest) /\
    StronglySorted Z.le (i0 :: i1 :: i2 :: i3 :: rest) /\
    bind_output_indices [601; 599; 600; 598] =
    Ok {| _OUTPUT_LOCATION_NAME := i0;
          _OUTPUT_CATEGORY_NAME := i1;
          _OUTPUT_SCORE_NAME := i2;
          _OUTPUT_NUMBER_NAME := i3 |}.
Proof.
  apply (proj2 (bind_output_indices_four_smallest [601; 599; 600; 598])).
  simpl. lia.
Defined.

(** C4, counterexample: a model with five outputs is not refused; the
    constructor binds the four smallest indices. *)
Lemma bind_output_indices_five_outputs :
  bind_output_indices [7; 3; 9; 1; 5] =
  Ok {| _OUTPUT_LOCATION_NAME := 1;
        _OUTPUT_CATEGORY_NAME := 3;
        _OUTPUT_SCORE_NAME := 5;
        _OUTPUT_NUMBER_NAME := 7 |} /\
  List.length [7; 3; 9; 1; 5] <> 4%nat.
Proof. split; [reflexivity | discriminate]. Qed.

Example bind_output_indices_three_outputs :
  bind_output_indices [2; 0; 1] = Raise IndexError.
Proof. reflexivity. Qed.

Example bind_output_indices_four_outputs :
  bind_output_indices [601; 599; 600; 598] =
  Ok {| _OUTPUT_LOCATION_NAME := 598;
        _OUTPUT_CATEGORY_NAME := 599;
        _OUTPUT_SCORE_NAME := 600;
        _OUTPUT_NUMBER_NAME := 601 |}.
Proof. reflexivity. Qed.

(* ------------------------------------------------------------------ *)
(** ** Normalisation metadata *)

Lemma normalization_loop_skip (units : list ProcessUnit) (mean std : Q) :
  no_normalization units ->
  normalization_loop units mean std = Ok (mean, std).
Proof.
  induction 1 as [|u units Hu _ IH]; simpl; [reflexivity|].
  now rewrite Hu.
Qed.

Lemma normalization_loop_app (pre post : list ProcessUnit) (mean std : Q) :
  no_normalization pre ->
  normalization_loop (pre ++ post) mean std =
  normalization_loop post mean std.
Proof.
  induction 1 as [|u pre Hu _ IH]; simpl; [reflexivity|].
  now rewrite Hu.
Qed.

(** C5.  Without a normalisation unit the defaults [mean = 0.0] and
    [std = 1.0] are kept; with a single normalisation unit, wherever it
    stands among the process units, the first entries of its [mean] and
    [std] arrays are read. *)
Theorem normalization_of_single_unit :
  (forall units,
     no_normalization units -> normalization units = Ok (0%Q, 1%Q)) /\
  (forall pre u post m ms s ss,
     no_normalization pre ->
     no_normalization post ->
     is_normalization u = true ->
     options_mean u = m :: ms ->
     options_std u = s :: ss ->
     normalization (pre ++ u :: post) = Ok (m, s)).
Proof.
  split.
  - intros units H. now apply normalization_loop_skip.
  - intros pre u post m ms s ss Hpre Hpost Hu Hm Hs.
    unfold normalization. rewrite normalization_loop_app by assumption.
    simpl. rewrite Hu, Hm, Hs, !getitem_cons_0. simpl.
    now apply normalization_loop_skip.
Qed.

Lemma normalization_of_single_unit_witness :
  normalization [] = Ok (0%Q, 1%Q) /\
  normalization mobilenet_units = Ok ((255 # 2)%Q, (255 # 2)%Q).
Proof.
  destruct normalization_of_single_unit as [Hnone Hone].
  split.
  - apply Hnone. constructor.
  - apply (Hone [ {| options_type := "ScoreThresholdingOptions";
                     options_mean := []; options_std := [] |} ]
                {| options_type := "NormalizationOptions";
                   options_mean := [255 # 2; 1]%Q;
                   options_std := [255 # 2; 1]%Q |}
                [] (255 # 2)%Q [1%Q] (255 # 2)%Q [1%Q]).
    + repeat constructor.
    + constructor.
    + reflexivity.
    + reflexivity.
    + reflexivity.
Defined.

(* ------------------------------------------------------------------ *)
(** ** Decoding the output tensors *)

Lemma In_range (count i : Z) : In i (range count) <-> 0 <= i < count.
Proof.
  unfold range. rewrite in_map_iff. split.
  - intros [n [<- Hn]]. apply in_seq in Hn. lia.
  - intros Hi. exists (Z.to_nat i). split; [lia|]. apply in_seq. lia.
Qed.

Section ParseFacts.
Variable o : ObjectDetectorOptions.
Variable labels : list string.
Variable boxes : list box.
Variable classes scores : list Q.
Variable w h : Z.

Lemma parse_detection_Some (i : Z) (d : Detection) :
  parse_detection o labels boxes classes scores w h i = Ok (Some d) ->
  emitted o labels boxes classes scores w h i d /\
  above_threshold o scores i = true.
Proof.
  unfold parse_detection, emitted, above_threshold.
  destruct (getitem scores i) as [s|e] eqn:H1; simpl; [|discriminate].
  destruct (Qle_bool (score_threshold o) s) eqn:Hs; [|discriminate].
  destruct (getitem boxes i) as [b|e] eqn:H2; simpl; [|discriminate].
  destruct (getitem classes i) as [c|e] eqn:H3; simpl; [|discriminate].
  destruct (getitem labels (py_int c)) as [l|e] eqn:H4; simpl; [|discriminate].
  intros H. injection H as <-.
  split; [|reflexivity]. exists s, b, c, l. repeat split; assumption.
Qed.

Lemma parse_detection_None (i : Z) :
  parse_detection o labels boxes classes scores w h i = Ok None ->
  above_threshold o scores i = false.
Proof.
  unfold parse_detection, above_threshold.
  destruct (getitem scores i) as [s|e]; simpl; [|discriminate].
  destruct (Qle_bool (score_threshold o) s) eqn:Hs; [|reflexivity].
  destruct (getitem boxes i) as [b|e]; simpl; [|discriminate].
  destruct (getitem classes i) as [c|e]; simpl; [|discriminate].
  destruct (getitem labels (py_int c)) as [l|e]; simpl; discriminate.
Qed.

Lemma parse_detection_only_IndexError (i : Z) (e : exn) :
  parse_detection o labels boxes classes scores w h i = Raise e ->
  e = IndexError.
Proof.
  unfold parse_detection.
  destruct (getitem scores i) as [s|e1] eqn:H1; simpl;
    [|intros H; injection H as <-; eapply getitem_only_IndexError; eauto].
  destruct (Qle_bool (score_threshold o) s); [|discriminate].
  destruct (getitem boxes i) as [b|e2] eqn:H2; simpl;
    [|intros H; injection H as <-; eapply getitem_only_IndexError; eauto].
  destruct (getitem classes i) as [c|e3] eqn:H3; simpl;
    [|intros H; injection H as <-; eapply getitem_only_IndexError; eauto].
  destruct (getitem labels (py_int c)) as [l|e4] eqn:H4; simpl;
    [discriminate|intros H; injection H as <-; eapply getitem_only_IndexError; eauto].
Qed.

Lemma parse_detection_well_formed (i count : Z) :
  well_formed_outputs o labels boxes classes scores count ->
  0 <= i < count ->
  (above_threshold o scores i = false /\
   parse_detection o labels boxes classes scores w h i = Ok None) \/
  (exists d, parse_detection o labels boxes classes scores w h i = Ok (Some d)).
Proof.
  intros Hwf Hi. destruct (Hwf i Hi) as (s & b & c & Hs & Hb & Hc & Hl).
  unfold parse_detection, above_threshold. rewrite Hs. simpl.
  destruct (Qle_bool (score_threshold o) s); [|left; auto].
  right. rewrite Hb, Hc. simpl.
  destruct (Hl eq_refl) as [l ->]. simpl. eauto.
Qed.

Lemma parse_loop_inv (rng : list Z) (acc results : list Detection) :
  parse_loop o labels boxes classes scores w h rng acc = Ok results ->
  exists ds,
    results = acc ++ ds /\
    Forall2 (emitted o labels boxes classes scores w h)
            (filter (above_threshold o scores) rng) ds.
Proof.
  revert acc. induction rng as [|i rng IH]; intros acc; simpl.
  - intros H. injection H as <-. exists []. now rewrite app_nil_r.
  - intros H. apply bind_Ok_inv in H. destruct H as [r [Hr H]].
    destruct r as [d|].
    + apply parse_detection_Some in Hr. destruct Hr as [Hd Hab].
      apply IH in H. destruct H as [ds [-> Hds]].
      rewrite Hab. exists (d :: ds). rewrite <- app_assoc. auto.
    + apply parse_detection_None in Hr. rewrite Hr. now apply IH.
Qed.

Lemma parse_loop_total (count : Z) (rng : list Z) (acc : list Detection) :
  well_formed_outputs o labels boxes classes scores count ->
  (forall i, In i rng -> 0 <= i < count) ->
  exists results,
    parse_loop o labels boxes classes scores w h rng acc = Ok results.
Proof.
  intros Hwf. revert acc. induction rng as [|i rng IH]; intros acc Hin; simpl.
  - eauto.
  - destruct (parse_detection_well_formed (i:=i) Hwf) as [[_ ->]|[d ->]];
      [apply Hin; now left| |]; simpl; apply IH; intros; apply Hin; now right.
Qed.

Lemma parse_loop_raises (rng : list Z) (acc : list Detection) (i : Z) :
  In i rng ->
  parse_detection o labels boxes classes scores w h i = Raise IndexError ->
  parse_loop o labels boxes classes scores w h rng acc = Raise IndexError.
Proof.
  intros Hin Hi. revert acc.
  induction rng as [|j rng IH]; intros acc; [contradiction|]. simpl.
  destruct (parse_detection o labels boxes classes scores w h j) as [r|e] eqn:Hj.
  - simpl. destruct Hin as [->|Hin]; [congruence|]. now apply IH.
  - simpl. now rewrite (parse_detection_only_IndexError _ Hj).
Qed.
End ParseFacts.

Lemma emitted_top_score o labels boxes classes scores w h i d :
  emitted o labels boxes classes scores w h i d ->
  getitem scores i = Ok (top_score d) /\
  (score_threshold o <= top_score d)%Q /\
  single_category d.
Proof.
  intros (s & b & c & l & Hs & Hle & _ & _ & _ & ->).
  unfold top_score, single_category. simpl.
  repeat split; [assumption|]. now apply Qle_bool_iff.
Qed.

Lemma Forall2_In_r {A B} (R : A -> B -> Prop) (l : list A) (l' : list B) b :
  Forall2 R l l' -> In b l' -> exists a, In a l /\ R a b.
Proof.
  induction 1 as [|x y l l' Hxy _ IH]; simpl; [contradiction|].
  intros [<-|Hb]; [eauto|]. destruct (IH Hb) as [a [Ha HR]]. eauto.
Qed.

Lemma Forall2_In_l {A B} (R : A -> B -> Prop) (l : list A) (l' : list B) a :
  Forall2 R l l' -> In a l -> exists b, In b l' /\ R a b.
Proof.
  induction 1 as [|x y l l' Hxy _ IH]; simpl; [contradiction|].
  intros [<-|Ha]; [eauto|]. destruct (IH Ha) as [b [Hb HR]]. eauto.
Qed.

(** C7.  On well-formed output tensors the decoder returns, in index
    order, exactly one detection for every index of [range(count)] whose
    score is at least the threshold: no returned detection scores below
    the threshold, and every index with [threshold <= score] (equality
    included) has its detection in the list. *)
Theorem parse_outputs_threshold o labels boxes classes scores w h count :
  well_formed_outputs o labels boxes classes scores count ->
  exists results,
    parse_outputs o labels boxes classes scores w h count = Ok results /\
    Forall2 (emitted o labels boxes classes scores w h)
            (filter (above_threshold o scores) (range count)) results /\
    (forall d, In d results -> ~ (top_score d < score_threshold o)%Q) /\
    (forall i s, 0 <= i < count -> getitem scores i = Ok s ->
       (score_threshold o <= s)%Q ->
       exists d, In d results /\ top_score d = s /\
                 emitted o labels boxes classes scores w h i d).
Proof.
  intros Hwf. unfold parse_outputs.
  destruct (parse_loop_total w h (range count) [] Hwf) as [results Hres].
  { intros i. apply In_range. }
  exists results. split; [exact Hres|].
  apply parse_loop_inv in Hres. destruct Hres as [ds [-> Hds]]. simpl.
  split; [exact Hds|]. split.
  - intros d Hd. destruct (@Forall2_In_r _ _ _ _ _ d Hds Hd) as [i [_ Hem]].
    apply emitted_top_score in Hem. apply Qle_not_lt. tauto.
  - intros i s Hi Hs Hle.
    assert (Hin : In i (filter (above_threshold o scores) (range count))).
    { apply filter_In. split; [now apply In_range|].
      unfold above_threshold. rewrite Hs. now apply Qle_bool_iff. }
    destruct (@Forall2_In_l _ _ _ _ _ i Hds Hin) as [d [Hd Hem]].
    exists d. repeat split; try assumption.
    apply emitted_top_score in Hem. destruct Hem as [Hs' _]. congruence.
Qed.

Lemma parse_outputs_threshold_witness :
  exists results,
    parse_outputs (options_with (1 # 2) None None (-1)) fish_shark
      example_boxes [0; 1; 0]%Q [9 # 10; 4 # 10; 9 # 10]%Q 200 100 3
    = Ok results /\
    Forall2 (emitted (options_with (1 # 2) None None (-1)) fish_shark
               example_boxes [0; 1; 0]%Q [9 # 10; 4 # 10; 9 # 10]%Q 200 100)
            (filter (above_threshold (options_with (1 # 2) None None (-1))
                       [9 # 10; 4 # 10; 9 # 10]%Q) (range 3)) results /\
    (forall d, In d results ->
       ~ (top_score d < score_threshold (options_with (1 # 2) None None (-1)))%Q) /\
    (forall i s, 0 <= i < 3 ->
       getitem [9 # 10; 4 # 10; 9 # 10]%Q i = Ok s ->
       (score_threshold (options_with (1 # 2) None None (-1)) <= s)%Q ->
       exists d, In d results /\ top_score d = s /\
                 emitted (options_with (1 # 2) None None (-1)) fish_shark
                   example_boxes [0; 1; 0]%Q [9 # 10; 4 # 10; 9 # 10]%Q
                   200 100 i d).
Proof.
  apply parse_outputs_threshold.
  intros i Hi.
  assert (Hcases : i = 0 \/ i = 1 \/ i = 2) by lia.
  destruct Hcases as [ -> | [ -> | -> ] ];
    do 3 eexists; (repeat split; try reflexivity);
    intros _; eexists; reflexivity.
Defined.

(** The decoder on the three-row example: the two rows that score 0.9 are
    kept, in order; the row that scores 0.4 is dropped. *)
Example parse_outputs_three_rows :
  parse_outputs (options_with (1 # 2) None None (-1)) fish_shark
    example_boxes [0; 1; 0]%Q [9 # 10; 4 # 10; 9 # 10]%Q 200 100 3
  = Ok [ {| bounding_box :=
              {| left := 40; top := 10; right := 120; bottom := 50 |};
            categories :=
              [ {| label := "fish"; score := 9 # 10; index := 0 |} ] |};
         {| bounding_box :=
              {| left := 50; top := 25; right := 150; bottom := 75 |};
            categories :=
              [ {| label := "fish"; score := 9 # 10; index := 0 |} ] |} ].
Proof. reflexivity. Qed.

(* ------------------------------------------------------------------ *)
(** ** Box denormalisation *)






(** The truncation is that of the rounded product: a third of 3 rounds to
    1.0 and 0.7 of 100 to 70.0, where the exact products (just below 1
    and just below 70) would give 0 and 69. *)
Example pixel_of_rounded_product :
  pixel third 3 = 1 /\
  float_value (coordinate_value third) =
    Some (6004799503160661 # 18014398509481984)%Q /\
  py_int ((6004799503160661 # 18014398509481984) * 3) = 0 /\
  pixel seven_tenths 100 = 70.
Proof. repeat split; vm_compute; reflexivity. Qed.

(** The largest products, of the largest coordinate and the largest
    side, are finite numbers. *)
Example pixel_of_largest_product :
  float_trunc
    (PrimFloat.mul max_single (float_of_int 9223372036854775807)) =
    Some (2 ^ 191 - 2 ^ 167) /\
  float_trunc
    (PrimFloat.mul (PrimFloat.opp max_single)
       (float_of_int 9223372036854775807)) =
    Some (- (2 ^ 191 - 2 ^ 167)).
Proof. split; vm_compute; reflexivity. Qed.


(* ------------------------------------------------------------------ *)
(** ** Ranking and filtering *)

Lemma Qle_bool_false (x y : Q) : Qle_bool x y = false -> (y < x)%Q.
Proof.
  intros H. apply Qnot_le_lt. intros Hle.
  apply Qle_bool_iff in Hle. congruence.
Qed.

Lemma higher_score_false (a b : Detection) :
  higher_score a b = false <-> (top_score a <= top_score b)%Q.
Proof.
  unfold higher_score, Qltb. rewrite negb_false_iff. apply Qle_bool_iff.
Qed.

Lemma higher_score_asym (a b : Detection) :
  higher_score a b = true -> higher_score b a = false.
Proof.
  unfold higher_score, Qltb. rewrite negb_true_iff, negb_false_iff.
  intros H. apply Qle_bool_false in H.
  apply Qle_bool_iff. now apply Qlt_le_weak.
Qed.

Lemma sort_stage_stable_descending (ds : list Detection) :
  stable_descending ds (sort_stage ds).
Proof.
  unfold stable_descending, sort_stage. split; [apply sorted_perm|]. split.
  - assert (H : StronglySorted (fun a b => higher_score b a = false)
                  (sorted higher_score ds)).
    { apply sorted_sorted; [exact higher_score_asym|].
      intros a b c Hba Hcb. apply higher_score_false in Hba, Hcb.
      apply higher_score_false. now apply Qle_trans with (top_score b). }
    induction H as [|a s Hs IH Ha]; constructor; [assumption|].
    eapply Forall_impl; [|exact Ha].
    intros b Hb. now apply higher_score_false in Hb.
  - intros q. apply sorted_stable. intros a b Ha Hb.
    apply Qeq_bool_iff in Ha, Hb. apply higher_score_false.
    rewrite Ha, Hb. apply Qle_refl.
Qed.

Lemma insert_map {A B} (g : A -> B) (lt : A -> A -> bool)
    (lt' : B -> B -> bool) (x : A) (l : list A) :
  (forall a b, lt' (g a) (g b) = lt a b) ->
  insert lt' (g x) (map g l) = map g (insert lt x l).
Proof.
  intros Hg. induction l as [|y l IH]; simpl; [reflexivity|].
  rewrite Hg. destruct (lt y x); simpl; [now rewrite IH | reflexivity].
Qed.

Lemma sorted_map {A B} (g : A -> B) (lt : A -> A -> bool)
    (lt' : B -> B -> bool) (l : list A) :
  (forall a b, lt' (g a) (g b) = lt a b) ->
  sorted lt' (map g l) = map g (sorted lt l).
Proof.
  intros Hg. induction l as [|x l IH]; simpl; [reflexivity|].
  rewrite IH. now apply insert_map.
Qed.

Lemma filterM_pure {A} (p : A -> result bool) (q : A -> bool) (l : list A) :
  Forall (fun a => p a = Ok (q a)) l -> filterM p l = Ok (filter q l).
Proof.
  induction 1 as [|a l Ha _ IH]; simpl; [reflexivity|].
  rewrite Ha, IH. reflexivity.
Qed.

Lemma single_category_first (d : Detection) :
  single_category d ->
  exists c, first_category d = Ok c /\
            top_score d = score c /\ top_label d = label c.
Proof.
  unfold single_category, first_category, top_score, top_label.
  destruct (categories d) as [|c [|c' cs]]; simpl; try discriminate.
  intros _. exists c. now rewrite getitem_cons_0.
Qed.

Lemma sort_by_score_single (ds : list Detection) :
  Forall single_category ds -> sort_by_score ds = Ok (sort_stage ds).
Proof.
  intros Hds. unfold sort_by_score, sort_stage.
  assert (Hkeys : mapM (fun d => k <- score_key d ;; Ok (k, d)) ds =
                  Ok (map (fun d => (top_score d, d)) ds)).
  { induction Hds as [|d ds Hd _ IH]; simpl; [reflexivity|].
    destruct (single_category_first Hd) as (c & Hc & Hs & _).
    unfold score_key at 1. rewrite Hc. simpl. rewrite IH, Hs. reflexivity. }
  rewrite Hkeys. simpl.
  rewrite (sorted_map (fun d => (top_score d, d)) higher_score)
    by reflexivity.
  rewrite map_map. simpl. now rewrite map_id.
Qed.

Lemma Forall_filter_keep {A} (P : A -> Prop) (q : A -> bool) (l : list A) :
  Forall P l -> Forall P (filter q l).
Proof.
  rewrite !Forall_forall. intros H x Hx. apply filter_In in Hx. now apply H.
Qed.

Lemma Forall_firstn_keep {A} (P : A -> Prop) (n : nat) (l : list A) :
  Forall P l -> Forall P (firstn n l).
Proof.
  intros H. rewrite <- (firstn_skipn n l) in H.
  now apply Forall_app in H.
Qed.

Lemma stages_keep (P : Detection -> Prop) (o : ObjectDetectorOptions)
    (ds : list Detection) :
  Forall P ds ->
  Forall P (sort_stage ds) /\
  Forall P (deny_stage o (sort_stage ds)) /\
  Forall P (allow_stage o (deny_stage o (sort_stage ds))) /\
  Forall P (truncate_stage o
              (allow_stage o (deny_stage o (sort_stage ds)))).
Proof.
  intros H.
  assert (H1 : Forall P (sort_stage ds))
    by (apply (Permutation_Forall (sorted_perm higher_score ds) H)).
  assert (H2 : Forall P (deny_stage o (sort_stage ds))).
  { unfold deny_stage. destruct (label_deny_list o);
      [now apply Forall_filter_keep | assumption]. }
  assert (H3 : Forall P (allow_stage o (deny_stage o (sort_stage ds)))).
  { unfold allow_stage. destruct (label_allow_list o);
      [now apply Forall_filter_keep | assumption]. }
  repeat split; try assumption.
  unfold truncate_stage. destruct (0 <? max_results o);
    [now apply Forall_firstn_keep | assumption].
Qed.

Lemma slice_result_count {A} (l : list A) (m : Z) :
  0 < m ->
  slice l 0 (Z.min (Z.of_nat (List.length l)) m) = firstn (Z.to_nat m) l.
Proof.
  intros Hm. rewrite slice_prefix by lia.
  destruct (Z.le_ge_cases m (Z.of_nat (List.length l))) as [Hle|Hge].
  - now rewrite Z.min_r by lia.
  - rewrite Z.min_l by lia. rewrite Nat2Z.id, firstn_all.
    symmetry. apply firstn_all2. lia.
Qed.

Lemma rank_stages (o : ObjectDetectorOptions) (results : list Detection) :
  Forall single_category results ->
  rank o results =
  Ok (truncate_stage o
        (allow_stage o (deny_stage o (sort_stage results)))).
Proof.
  intros Hres.
  destruct (stages_keep o Hres) as (H1 & H2 & H3 & _).
  unfold rank. rewrite sort_by_score_single by assumption. simpl.
  assert (Hdeny :
    match label_deny_list o with
    | Some deny => filterM (label_not_in deny) (sort_stage results)
    | None => Ok (sort_stage results)
    end = Ok (deny_stage o (sort_stage results))).
  { unfold deny_stage. destruct (label_deny_list o) as [deny|]; [|reflexivity].
    apply filterM_pure. eapply Forall_impl; [|exact H1].
    intros d Hd. destruct (single_category_first Hd) as (c & Hc & _ & Hl).
    unfold label_not_in. rewrite Hc, Hl. reflexivity. }
  rewrite Hdeny. simpl.
  assert (Hallow :
    match label_allow_list o with
    | Some allow => filterM (label_in allow) (deny_stage o (sort_stage results))
    | None => Ok (deny_stage o (sort_stage results))
    end = Ok (allow_stage o (deny_stage o (sort_stage results)))).
  { unfold allow_stage. destruct (label_allow_list o) as [allow|]; [|reflexivity].
    apply filterM_pure. eapply Forall_impl; [|exact H2].
    intros d Hd. destruct (single_category_first Hd) as (c & Hc & _ & Hl).
    unfold label_in. rewrite Hc, Hl. reflexivity. }
  rewrite Hallow. simpl.
  unfold truncate_stage. destruct (0 <? max_results o) eqn:Hmax; [|reflexivity].
  apply Z.ltb_lt in Hmax. now rewrite slice_result_count.
Qed.

(** C1.  On a decoded detection list (every detection carries its single
    category) the ranker returns the list (1) sorted by non-increasing
    score, equal scores in decode order, then (2) without the detections
    whose label is in the deny list, when there is one, then (3) with only
    the detections whose label is in the allow list, when there is one,
    then (4) cut to its first [max_results] entries when [max_results] is
    positive.  A positive [max_results] bounds the length of the result; a
    [max_results] of zero or less truncates nothing. *)
Theorem rank_pipeline (o : ObjectDetectorOptions) (results : list Detection) :
  Forall single_category results ->
  stable_descending results (sort_stage results) /\
  rank o results =
    Ok (truncate_stage o
          (allow_stage o (deny_stage o (sort_stage results)))) /\
  (0 < max_results o ->
   forall ranked, rank o results = Ok ranked ->
     Z.of_nat (List.length ranked) <= max_results o) /\
  (max_results o <= 0 -> forall ds, truncate_stage o ds = ds).
Proof.
  intros Hres. split; [apply sort_stage_stable_descending|].
  split; [now apply rank_stages|]. split.
  - intros Hmax ranked Hranked. rewrite rank_stages in Hranked by assumption.
    injection Hranked as <-. unfold truncate_stage.
    assert (Hpos : (0 <? max_results o) = true) by (apply Z.ltb_lt; lia).
    rewrite Hpos.
    pose proof (firstn_le_length (Z.to_nat (max_results o))
      (allow_stage o (deny_stage o (sort_stage results)))). lia.
  - intros Hmax ds. unfold truncate_stage.
    assert (Hneg : (0 <? max_results o) = false) by (apply Z.ltb_ge; lia).
    now rewrite Hneg.
Qed.

Lemma rank_pipeline_witness :
  let o := options_with (1 # 2) (Some ["fish"%string])
             (Some ["shark"%string; "fish"%string]) 1 in
  let results := [ detection_of "fish" (8 # 10) 0;
                   detection_of "shark" (9 # 10) 1;
                   detection_of "shark" (18 # 20) 1 ] in
  stable_descending results (sort_stage results) /\
  rank o results =
    Ok (truncate_stage o
          (allow_stage o (deny_stage o (sort_stage results)))) /\
  (0 < max_results o ->
   forall ranked, rank o results = Ok ranked ->
     Z.of_nat (List.length ranked) <= max_results o) /\
  (max_results o <= 0 -> forall ds, truncate_stage o ds = ds).
Proof.
  intros o results. apply (rank_pipeline o (results:=results)).
  repeat constructor.
Defined.

(** The two sharks score the same (0.9 and 18/20): the one decoded first
    stays first; the fish is denied; one result is kept. *)
Example rank_deny_allow_truncate :
  rank (options_with (1 # 2) (Some ["fish"%string])
          (Some ["shark"%string; "fish"%string]) 1)
       [ detection_of "fish" (8 # 10) 0;
         detection_of "shark" (9 # 10) 1;
         detection_of "shark" (18 # 20) 1 ]
  = Ok [ detection_of "shark" (9 # 10) 1 ].
Proof. reflexivity. Qed.

Example rank_unbounded :
  rank (options_with (1 # 2) None None (-1))
       [ detection_of "fish" (8 # 10) 0;
         detection_of "shark" (9 # 10) 1;
         detection_of "shark" (18 # 20) 1 ]
  = Ok [ detection_of "shark" (9 # 10) 1;
         detection_of "shark" (18 # 20) 1;
         detection_of "fish" (8 # 10) 0 ].
Proof. reflexivity. Qed.

(* ------------------------------------------------------------------ *)
(** ** The detections returned *)

(** C9.  Every detection [_postprocess] returns carries exactly one
    category. *)
Theorem postprocess_single_category o labels boxes classes scores
    count w h (results : list Detection) :
  _postprocess o labels boxes classes scores count w h = Ok results ->
  Forall single_category results.
Proof.
  unfold _postprocess. intros H.
  apply bind_Ok_inv in H. destruct H as [ds [Hds Hrank]].
  assert (Hsingle : Forall single_category ds).
  { unfold parse_outputs in Hds. apply parse_loop_inv in Hds.
    destruct Hds as [ds' [-> Hem]]. simpl.
    apply Forall_forall. intros d Hd.
    destruct (@Forall2_In_r _ _ _ _ _ d Hem Hd) as [i [_ Hi]].
    now apply emitted_top_score in Hi. }
  rewrite rank_stages in Hrank by assumption. injection Hrank as <-.
  now apply stages_keep.
Qed.

Lemma postprocess_single_category_witness :
  Forall single_category
    [ {| bounding_box :=
           {| left := 0; top := 0; right := 200; bottom := 100 |};
         categories :=
           [ {| label := "shark"; score := 9 # 10; index := 1 |} ] |} ].
Proof.
  apply (@postprocess_single_category
           (options_with (1 # 2) (Some ["fish"%string]) None (-1))
           fish_shark example_boxes [0; 1; 0]%Q [8 # 10; 9 # 10; 3 # 10]%Q
           3 200 100).
  reflexivity.
Defined.

(** The end-to-end example: labels fish and shark, threshold 0.5, fish
    denied.  A shark at 0.3 does not clear the threshold, so nothing is
    left; a shark at 0.9 is the only detection returned. *)
Example postprocess_deny_fish :
  _postprocess (options_with (1 # 2) (Some ["fish"%string]) None (-1))
    fish_shark example_boxes [0; 1]%Q [8 # 10; 3 # 10]%Q 2 200 100 = Ok []
  /\
  _postprocess (options_with (1 # 2) (Some ["fish"%string]) None (-1))
    fish_shark example_boxes [0; 1]%Q [8 # 10; 9 # 10]%Q 2 200 100 =
  Ok [ {| bounding_box :=
            {| left := 0; top := 0; right := 200; bottom := 100 |};
          categories :=
            [ {| label := "shark"; score := 9 # 10; index := 1 |} ] |} ].
Proof. split; reflexivity. Qed.

(* ------------------------------------------------------------------ *)
(** ** The label lookup *)

Lemma parse_detection_bad_class o labels boxes classes scores w h i s c :
  getitem scores i = Ok s ->
  (score_threshold o <= s)%Q ->
  getitem classes i = Ok c ->
  Z.of_nat (List.length labels) <= py_int c \/
  py_int c < - Z.of_nat (List.length labels) ->
  parse_detection o labels boxes classes scores w h i = Raise IndexError.
Proof.
  intros Hs Hle Hc Hbad. unfold parse_detection.
  rewrite Hs. simpl. apply Qle_bool_iff in Hle. rewrite Hle.
  destruct (getitem boxes i) as [b|e] eqn:Hb; simpl.
  - rewrite Hc. simpl. now rewrite getitem_out_of_range.
  - now rewrite (getitem_only_IndexError _ _ Hb).
Qed.

(** C10 (as amended).  The label lookup is unchecked.  When a row of
    [range(count)] clears the threshold and its class index is not below
    the length of the label list (or is below minus that length), the
    whole call raises [IndexError].  A negative class index [c] that is at
    least minus the length selects the label at position [length + c],
    counted from the end, and the detection is returned with the index
    [c]. *)
Theorem postprocess_label_lookup_unchecked :
  (forall o labels boxes classes scores count w h i s c,
     0 <= i < count ->
     getitem scores i = Ok s ->
     (score_threshold o <= s)%Q ->
     getitem classes i = Ok c ->
     Z.of_nat (List.length labels) <= py_int c \/
     py_int c < - Z.of_nat (List.length labels) ->
     _postprocess o labels boxes classes scores count w h =
     Raise IndexError) /\
  (forall o labels boxes classes scores w h i s b c,
     getitem scores i = Ok s ->
     (score_threshold o <= s)%Q ->
     getitem boxes i = Ok b ->
     getitem classes i = Ok c ->
     - Z.of_nat (List.length labels) <= py_int c < 0 ->
     exists l,
       nth_error labels
         (Z.to_nat (Z.of_nat (List.length labels) + py_int c)) = Some l /\
       parse_detection o labels boxes classes scores w h i =
       Ok (Some {| bounding_box := denormalize b w h;
                   categories :=
                     [ {| label := l; score := s; index := py_int c |} ] |})).
Proof.
  split.
  - intros o labels boxes classes scores count w h i s c Hi Hs Hle Hc Hbad.
    unfold _postprocess, parse_outputs.
    rewrite (@parse_loop_raises o labels boxes classes scores w h
               (range count) [] i); [reflexivity | now apply In_range |].
    eapply parse_detection_bad_class; eauto.
  - intros o labels boxes classes scores w h i s b c Hs Hle Hb Hc Hneg.
    destruct (nth_error labels
                (Z.to_nat (Z.of_nat (List.length labels) + py_int c)))
      as [l|] eqn:Hl.
    + exists l. split; [reflexivity|].
      unfold parse_detection. rewrite Hs. simpl.
      apply Qle_bool_iff in Hle. rewrite Hle, Hb. simpl. rewrite Hc. simpl.
      rewrite getitem_negative by lia.
      assert (H0 : (0 <=? py_int c + Z.of_nat (List.length labels)) = true)
        by (apply Z.leb_le; lia).
      rewrite H0, (Z.add_comm (py_int c)), Hl. reflexivity.
    + apply nth_error_None in Hl. lia.
Qed.

Lemma postprocess_label_lookup_unchecked_witness :
  _postprocess (options_with (1 # 2) None None (-1)) fish_shark
    example_boxes [0; 2]%Q [9 # 10; 8 # 10]%Q 2 200 100 = Raise IndexError
  /\
  exists l,
    nth_error fish_shark (Z.to_nat (Z.of_nat (List.length fish_shark)
                                    + py_int (-1))) = Some l /\
    parse_detection (options_with (1 # 2) None None (-1)) fish_shark
      example_boxes [0; -1]%Q [9 # 10; 8 # 10]%Q 200 100 1 =
    Ok (Some {| bounding_box := denormalize whole_image_box 200 100;
                categories :=
                  [ {| label := l; score := 8 # 10;
                       index := py_int (-1) |} ] |}).
Proof.
  destruct postprocess_label_lookup_unchecked as [Hraise Hneg].
  split.
  - apply (Hraise _ _ _ _ _ _ _ _ 1 (8 # 10)%Q 2%Q);
      [lia | reflexivity | discriminate | reflexivity
       | left; vm_compute; discriminate].
  - apply (Hneg _ _ _ _ _ _ _ 1 (8 # 10)%Q whole_image_box (-1)%Q);
      [reflexivity | discriminate | reflexivity | reflexivity
       | vm_compute; split; [discriminate | reflexivity]].
Defined.

(** C10, counterexample: with two labels, the class index -3 of a row that
    clears the threshold selects no label; the call raises [IndexError]. *)
Lemma postprocess_class_index_minus_three :
  _postprocess (options_with (1 # 2) None None (-1)) fish_shark
    example_boxes [-3]%Q [9 # 10]%Q 1 200 100 = Raise IndexError /\
  py_int (-3) = -3 /\
  getitem fish_shark (-1) = Ok "shark"%string.
Proof. repeat split. Qed.

(* ------------------------------------------------------------------ *)
(** ** Drawing: [visualize] paints the buffer it is given *)

Lemma update_at_length {A} (l : list A) (n : nat) (f : A -> A) :
  List.length (update_at l n f) = List.length l.
Proof.
  revert n. induction l as [|a l IH]; intros [|n]; simpl; auto.
Qed.

Lemma update_at_same {A} (l : list A) (n : nat) (f : A -> A) (a : A) :
  nth_error l n = Some a -> nth_error (update_at l n f) n = Some (f a).
Proof.
  revert n. induction l as [|b l IH]; intros [|n]; simpl; try discriminate.
  - now intros [= ->].
  - apply IH.
Qed.

Lemma update_at_other {A} (l : list A) (n k : nat) (f : A -> A) :
  k <> n -> nth_error (update_at l n f) k = nth_error l k.
Proof.
  revert n k. induction l as [|b l IH]; intros [|n] [|k] Hk; simpl;
    try reflexivity; try congruence.
  apply IH. congruence.
Qed.

Section VisualizeFacts.
Variable cv2_rectangle : ndarray -> point -> point -> color -> Z -> ndarray.
Variable cv2_putText :
  ndarray -> string -> point -> Z -> Z -> color -> Z -> ndarray.
Variable str_round2 : Q -> string.

Lemma visualize_loop_paints (detections : list Detection)
    (text_color box_color : color) (h : heap) (image : ref) (a : ndarray) :
  nth_error h image = Some a ->
  Forall single_category detections ->
  exists h',
    visualize_loop cv2_rectangle cv2_putText str_round2
      h image detections text_color box_color = (h', Ok tt) /\
    List.length h' = List.length h /\
    nth_error h' image =
      Some (paint cv2_rectangle cv2_putText str_round2
              detections text_color box_color a) /\
    (forall r, r <> image -> nth_error h' r = nth_error h r).
Proof.
  intros Ha Hds. revert h a Ha.
  induction Hds as [|d ds Hd _ IH]; intros h a Ha; simpl.
  - exists h. auto.
  - unfold single_category in Hd.
    destruct (categories d) as [|c [|c' cs]] eqn:Hc; try discriminate.
    rewrite getitem_cons_0.
    set (a1 := draw_box cv2_rectangle d box_color a).
    set (a2 := draw_label cv2_putText str_round2 d c text_color a1).
    set (h1 := modify h image (draw_box cv2_rectangle d box_color)).
    set (h2 := modify h1 image
                 (draw_label cv2_putText str_round2 d c text_color)).
    assert (H1 : nth_error h1 image = Some a1)
      by (apply update_at_same; exact Ha).
    assert (H2 : nth_error h2 image = Some a2)
      by (apply update_at_same; exact H1).
    destruct (IH h2 a2 H2) as (h' & Hloop & Hlen & Himg & Hframe).
    exists h'. split; [exact Hloop|]. split; [|split].
    + rewrite Hlen. unfold h2, h1, modify. now rewrite !update_at_length.
    + exact Himg.
    + intros r Hr. rewrite (Hframe r Hr). unfold h2, h1, modify.
      now rewrite !update_at_other.
Qed.
End VisualizeFacts.

(** C3 (as amended).  [visualize] draws every box and label on the buffer
    it is passed and returns that same buffer: the reference returned is
    the argument, no buffer is allocated, every other buffer is untouched,
    and the contents of the argument afterwards are the paint of all the
    detections over its former contents (the former contents themselves
    when the list is empty). *)
Theorem visualize_paints_in_place
    (cv2_rectangle : ndarray -> point -> point -> color -> Z -> ndarray)
    (cv2_putText :
       ndarray -> string -> point -> Z -> Z -> color -> Z -> ndarray)
    (str_round2 : Q -> string)
    (h : heap) (image : ref) (a : ndarray)
    (detections : list Detection) (text_color box_color : color) :
  nth_error h image = Some a ->
  Forall single_category detections ->
  exists h',
    visualize cv2_rectangle cv2_putText str_round2
      h image detections text_color box_color = (h', Ok image) /\
    List.length h' = List.length h /\
    nth_error h' image =
      Some (paint cv2_rectangle cv2_putText str_round2
              detections text_color box_color a) /\
    (forall r, r <> image -> nth_error h' r = nth_error h r) /\
    paint cv2_rectangle cv2_putText str_round2 [] text_color box_color a = a.
Proof.
  intros Ha Hds.
  destruct (@visualize_loop_paints cv2_rectangle cv2_putText str_round2
              detections text_color box_color h image a Ha Hds)
    as (h' & Hloop & Hlen & Himg & Hframe).
  exists h'. unfold visualize. rewrite Hloop. simpl. auto.
Qed.

Lemma visualize_paints_in_place_witness :
  exists h',
    visualize corners_rectangle origin_putText (fun _ => "0.9"%string)
      [black_2x2; black_2x2] 1%nat [unit_detection] (255, 255, 255)
      (34, 143, 34) = (h', Ok 1%nat) /\
    List.length h' = List.length [black_2x2; black_2x2] /\
    nth_error h' 1%nat =
      Some (paint corners_rectangle origin_putText (fun _ => "0.9"%string)
              [unit_detection] (255, 255, 255) (34, 143, 34) black_2x2) /\
    (forall r, r <> 1%nat ->
       nth_error h' r = nth_error [black_2x2; black_2x2] r) /\
    paint corners_rectangle origin_putText (fun _ => "0.9"%string) []
      (255, 255, 255) (34, 143, 34) black_2x2 = black_2x2.
Proof.
  apply visualize_paints_in_place; [reflexivity | repeat constructor].
Defined.

(** C3, counterexample: called on the only buffer of the heap with one
    detection, [visualize] returns that buffer (reference 0) whatever the
    drawing primitives are, and the heap afterwards holds one buffer: the
    argument, painted.  With the stand-in primitives its pixels differ
    from the ones passed in. *)
Lemma visualize_returns_its_argument :
  (forall rectangle putText str_round2,
     visualize rectangle putText str_round2
       [black_2x2] 0%nat [unit_detection] (255, 255, 255) (34, 143, 34) =
     ([ putText
          (rectangle black_2x2 (0, 0) (1, 1) (34, 143, 34) 2)
          ("fish (" ++ str_round2 (9 # 10)%Q ++ ")")%string
          (10, 20) 1 1 (255, 255, 255) 1 ],
      Ok 0%nat)) /\
  fst (visualize corners_rectangle origin_putText (fun _ => "0.9"%string)
         [black_2x2] 0%nat [unit_detection] (255, 255, 255) (34, 143, 34)) =
  [ [ [ [34; 143; 34]; [0; 0; 0] ];
      [ [0; 0; 0]; [34; 143; 34] ] ] ] /\
  [ [ [34; 143; 34]; [0; 0; 0] ];
    [ [0; 0; 0]; [34; 143; 34] ] ] <> black_2x2.
Proof.
  split; [|split].
  - intros rectangle putText str_round2. reflexivity.
  - reflexivity.
  - discriminate.
Qed.

(* ------------------------------------------------------------------ *)
(** ** White-patch balancing: the arithmetic of one entry *)

Lemma uint8_values_In (z : Z) : uint8 z -> In z uint8_values.
Proof.
  intros [H0 H1]. unfold uint8_values. apply in_map_iff.
  exists (Z.to_nat z). split; [lia|]. apply in_seq. lia.
Qed.

Lemma option_Z_eqb_eq (a b : option Z) : option_Z_eqb a b = true -> a = b.
Proof.
  destruct a as [x|], b as [y|]; simpl; try discriminate; [|reflexivity].
  intros H. apply Z.eqb_eq in H. now subst.
Qed.

(** The binary64 computation of one entry agrees with exact integer
    arithmetic on every pair of 8-bit values. *)
Lemma balance_entry_exact (p m : Z) :
  uint8 p -> uint8 m -> balance_entry p m = balance_exact p m.
Proof.
  intros Hp Hm.
  assert (Hall : balance_agrees = true) by (vm_compute; reflexivity).
  unfold balance_agrees in Hall.
  rewrite forallb_forall in Hall.
  specialize (Hall m (uint8_values_In Hm)).
  rewrite forallb_forall in Hall.
  apply option_Z_eqb_eq, Hall, uint8_values_In, Hp.
Qed.

Lemma zero_divisor_entry_all (p : Z) : uint8 p -> zero_divisor_entry p = true.
Proof.
  intros Hp.
  assert (Hall : forallb zero_divisor_entry uint8_values = true)
    by (vm_compute; reflexivity).
  rewrite forallb_forall in Hall. apply Hall, uint8_values_In, Hp.
Qed.

Lemma balance_exact_bounds (p m v : Z) :
  uint8 p -> uint8 m -> balance_exact p m = Some v -> 0 <= v <= 255.
Proof.
  intros [Hp0 Hp1] [Hm0 Hm1]. unfold balance_exact.
  destruct (m =? 0) eqn:Hm.
  - destruct (p =? 0); [discriminate|]. intros [= <-]. lia.
  - apply Z.eqb_neq in Hm. intros H.
    assert (Hv : v = Z.min 255 (255 * p / m)) by congruence.
    assert (Hq : 0 <= 255 * p / m) by (apply Z.div_pos; lia).
    revert Hv Hq. generalize (255 * p / m). intros q Hv Hq. lia.
Qed.

(* ------------------------------------------------------------------ *)
(** ** White-patch balancing: the patch and its maxima *)

Lemma Forall_skipn_keep {A} (P : A -> Prop) (n : nat) (l : list A) :
  Forall P l -> Forall P (skipn n l).
Proof.
  intros H. rewrite <- (firstn_skipn n l) in H.
  now apply Forall_app in H.
Qed.

Lemma Forall_slice {A} (P : A -> Prop) (l : list A) (a b : Z) :
  Forall P l -> Forall P (slice l a b).
Proof.
  intros H. unfold slice. now apply Forall_firstn_keep, Forall_skipn_keep.
Qed.

Lemma image_patch_keeps (P : list Z -> Prop) (image : ndarray)
    (from_row from_column row_width column_width : Z) :
  Forall (Forall P) image ->
  Forall (Forall P)
    (image_patch image from_row from_column row_width column_width).
Proof.
  intros H. unfold image_patch. apply Forall_map.
  apply Forall_slice. eapply Forall_impl; [|exact H].
  intros row Hrow. now apply Forall_slice.
Qed.

Lemma pointwise_max_length (a b : list Z) :
  List.length a = List.length b ->
  List.length (pointwise_max a b) = List.length a.
Proof.
  intros H. unfold pointwise_max.
  rewrite length_map, length_combine, <- H. apply Nat.min_id.
Qed.

Lemma pointwise_max_nth (a b : list Z) (k : nat) :
  List.length a = List.length b ->
  nth k (pointwise_max a b) 0 = Z.max (nth k a 0) (nth k b 0).
Proof.
  revert b k. induction a as [|x a IH]; intros [|y b] k H;
    try discriminate; destruct k; simpl; try reflexivity.
  apply IH. simpl in H. congruence.
Qed.

Lemma pointwise_max_uint8 (a b : list Z) :
  Forall uint8 a -> Forall uint8 b -> Forall uint8 (pointwise_max a b).
Proof.
  intros Ha Hb. unfold pointwise_max. apply Forall_map.
  apply Forall_forall. intros [x y] Hxy. simpl.
  rewrite Forall_forall in Ha, Hb.
  pose proof (Ha x (in_combine_l _ _ _ _ Hxy)) as Hx.
  pose proof (Hb y (in_combine_r _ _ _ _ Hxy)) as Hy.
  unfold uint8 in *. lia.
Qed.

Lemma fold_pointwise_max_uint8 (rest : list (list Z)) (acc : list Z) :
  Forall uint8 acc -> Forall (Forall uint8) rest ->
  Forall uint8 (fold_left pointwise_max rest acc).
Proof.
  intros Hacc Hrest. revert acc Hacc.
  induction Hrest as [|px rest Hpx _ IH]; intros acc Hacc; simpl;
    [assumption|].
  apply IH. now apply pointwise_max_uint8.
Qed.

Lemma max_axis01_uint8 (a : ndarray) (m : list Z) :
  uint8_image a -> max_axis01 a = Ok m -> Forall uint8 m.
Proof.
  unfold uint8_image, max_axis01. intros Ha.
  apply Forall_concat in Ha.
  destruct (List.concat a) as [|px rest]; [discriminate|].
  intros [= <-]. apply Forall_cons_iff in Ha.
  now apply fold_pointwise_max_uint8.
Qed.

Lemma fold_pointwise_max_spec (n : nat) (rest : list (list Z))
    (acc : list Z) :
  List.length acc = n ->
  Forall (fun px => List.length px = n) rest ->
  List.length (fold_left pointwise_max rest acc) = n /\
  forall k,
    nth k acc 0 <= nth k (fold_left pointwise_max rest acc) 0 /\
    (forall px, In px rest ->
       nth k px 0 <= nth k (fold_left pointwise_max rest acc) 0) /\
    (nth k (fold_left pointwise_max rest acc) 0 = nth k acc 0 \/
     exists px, In px rest /\
       nth k px 0 = nth k (fold_left pointwise_max rest acc) 0).
Proof.
  intros Hacc Hrest. revert acc Hacc.
  induction Hrest as [|px rest Hpx _ IH]; intros acc Hacc; simpl.
  - split; [assumption|]. intros k. split; [lia|]. split; [tauto | now left].
  - assert (Hlen : List.length acc = List.length px) by congruence.
    destruct (IH (pointwise_max acc px)) as [Hn Hk].
    { now rewrite pointwise_max_length. }
    split; [assumption|]. intros k.
    destruct (Hk k) as (Hle & Hin & Hex).
    rewrite pointwise_max_nth in Hle, Hex by assumption.
    split; [lia|]. split.
    + intros px' [<-|Hpx']; [lia | now apply Hin].
    + destruct Hex as [Heq|[px' [Hpx' Heq]]].
      * destruct (Z.max_spec (nth k acc 0) (nth k px 0)) as [[_ Hm]|[_ Hm]];
          rewrite Hm in Heq; [right; exists px; auto | now left].
      * right. exists px'. auto.
Qed.

Lemma max_axis01_is_channel_max (n : nat) (a : ndarray) (m : list Z) :
  channels n a -> max_axis01 a = Ok m ->
  List.length m = n /\ is_channel_max (List.concat a) m.
Proof.
  unfold channels, max_axis01. intros Ha.
  apply Forall_concat in Ha.
  destruct (List.concat a) as [|px rest]; [discriminate|].
  intros [= <-]. apply Forall_cons_iff in Ha. destruct Ha as [Hpx Hrest].
  destruct (@fold_pointwise_max_spec n rest px Hpx Hrest) as [Hn Hk].
  split; [assumption|]. intros k _.
  destruct (Hk k) as (Hle & Hin & Hex). split.
  - intros px' [<-|Hpx']; [assumption | now apply Hin].
  - destruct Hex as [Heq|[px' [Hpx' Heq]]].
    + exists px. split; [now left | now rewrite Heq].
    + exists px'. split; [now right | assumption].
Qed.

Lemma broadcast_ext_in {B} (f g : Z -> Z -> B) (image : ndarray)
    (m : list Z) :
  (forall row px p d, In row image -> In px row -> In p px -> In d m ->
     f p d = g p d) ->
  broadcast f image m = broadcast g image m.
Proof.
  intros H. unfold broadcast.
  apply map_ext_in. intros row Hrow.
  apply map_ext_in. intros px Hpx.
  apply map_ext_in. intros [p d] Hpd. simpl.
  apply (H row px); try assumption.
  - eapply in_combine_l; eauto.
  - eapply in_combine_r; eauto.
Qed.

Lemma broadcast_Forall {B} (P : B -> Prop) (f : Z -> Z -> B)
    (image : ndarray) (m : list Z) :
  (forall row px p d, In row image -> In px row -> In p px -> In d m ->
     P (f p d)) ->
  Forall (Forall (Forall P)) (broadcast f image m).
Proof.
  intros H. unfold broadcast.
  apply Forall_map, Forall_forall. intros row Hrow.
  apply Forall_map, Forall_forall. intros px Hpx.
  apply Forall_map, Forall_forall. intros [p d] Hpd. simpl.
  apply (H row px); try assumption.
  - eapply in_combine_l; eauto.
  - eapply in_combine_r; eauto.
Qed.

Lemma uint8_image_In (image : ndarray) row px p :
  uint8_image image -> In row image -> In px row -> In p px -> uint8 p.
Proof.
  unfold uint8_image. rewrite Forall_forall. intros H Hrow Hpx Hp.
  specialize (H row Hrow). rewrite Forall_forall in H.
  specialize (H px Hpx). rewrite Forall_forall in H. now apply H.
Qed.

Lemma whitepatch_balancing_unfold (image : ndarray)
    (from_row from_column row_width column_width : Z) (m : list Z) :
  max_axis01 (image_patch image from_row from_column
                row_width column_width) = Ok m ->
  image_max image from_row from_column row_width column_width =
    Ok (broadcast (fun p d => clip01 (true_divide p d)) image m) /\
  whitepatch_balancing image from_row from_column row_width column_width =
    Ok (broadcast balance_entry image m).
Proof.
  intros Hm. unfold whitepatch_balancing, image_max. rewrite Hm. simpl.
  split; [reflexivity|]. f_equal. unfold broadcast.
  rewrite map_map. apply map_ext. intros row.
  rewrite map_map. apply map_ext. intros px.
  rewrite map_map. reflexivity.
Qed.

Lemma whitepatch_balancing_exact (image : ndarray)
    (from_row from_column row_width column_width : Z) (m : list Z) :
  uint8_image image ->
  max_axis01 (image_patch image from_row from_column
                row_width column_width) = Ok m ->
  whitepatch_balancing image from_row from_column row_width column_width =
    Ok (broadcast balance_exact image m).
Proof.
  intros Himg Hm.
  destruct (whitepatch_balancing_unfold _ _ _ _ _ Hm) as [_ ->].
  f_equal. apply broadcast_ext_in. intros row px p d Hrow Hpx Hp Hd.
  apply balance_entry_exact.
  - eapply uint8_image_In; eauto.
  - assert (Hu : Forall uint8 m).
    { eapply max_axis01_uint8; [|exact Hm]. now apply image_patch_keeps. }
    rewrite Forall_forall in Hu. now apply Hu.
Qed.

(* ------------------------------------------------------------------ *)
(** ** White-patch balancing: the balanced image *)

(** C6 (as amended).  On an image of 8-bit values and a patch that holds
    at least one pixel, the balancer takes, channel by channel, the largest
    value found in the patch, divides every value of the whole image by the
    maximum of its channel, clips the quotient to [[0, 1]], scales it by
    255 and drops the fractional part (it does not round to the nearest
    integer): where the maximum is not zero the entry is [255*p/m]
    truncated and cut at 255.  No entry of the result exceeds 255. *)
Theorem whitepatch_balancing_truncates (image : ndarray)
    (from_row from_column row_width column_width : Z)
    (n : nat) (m : list Z) :
  uint8_image image ->
  channels n image ->
  max_axis01 (image_patch image from_row from_column
                row_width column_width) = Ok m ->
  (List.length m = n /\
   is_channel_max
     (List.concat (image_patch image from_row from_column
                     row_width column_width)) m) /\
  whitepatch_balancing image from_row from_column row_width column_width =
    Ok (broadcast balance_exact image m) /\
  Forall (Forall (Forall (fun e => forall v, e = Some v -> 0 <= v <= 255)))
    (broadcast balance_exact image m) /\
  (Forall (fun d => d <> 0) m ->
   broadcast balance_exact image m =
   broadcast (fun p d => Some (Z.min 255 (255 * p / d))) image m).
Proof.
  intros Himg Hch Hm.
  assert (Hu : Forall uint8 m).
  { eapply max_axis01_uint8; [|exact Hm]. now apply image_patch_keeps. }
  split; [|split; [|split]].
  - apply max_axis01_is_channel_max; [|exact Hm].
    now apply image_patch_keeps.
  - now apply whitepatch_balancing_exact.
  - apply broadcast_Forall. intros row px p d Hrow Hpx Hp Hd v Hv.
    apply (balance_exact_bounds (p:=p) (m:=d)); try assumption.
    + eapply uint8_image_In; eauto.
    + rewrite Forall_forall in Hu. now apply Hu.
  - intros Hnz. apply broadcast_ext_in. intros row px p d _ _ _ Hd.
    rewrite Forall_forall in Hnz. specialize (Hnz d Hd).
    unfold balance_exact. apply Z.eqb_neq in Hnz. now rewrite Hnz.
Qed.

Lemma whitepatch_balancing_truncates_witness :
  (List.length [7; 7; 7] = 3%nat /\
   is_channel_max
     (List.concat (image_patch sevens_image 0 0 1 2)) [7; 7; 7]) /\
  whitepatch_balancing sevens_image 0 0 1 2 =
    Ok (broadcast balance_exact sevens_image [7; 7; 7]) /\
  Forall (Forall (Forall (fun e => forall v, e = Some v -> 0 <= v <= 255)))
    (broadcast balance_exact sevens_image [7; 7; 7]) /\
  (Forall (fun d => d <> 0) [7; 7; 7] ->
   broadcast balance_exact sevens_image [7; 7; 7] =
   broadcast (fun p d => Some (Z.min 255 (255 * p / d)))
     sevens_image [7; 7; 7]).
Proof.
  apply whitepatch_balancing_truncates.
  - repeat constructor; unfold uint8; lia.
  - repeat constructor.
  - reflexivity.
Defined.

(** C6, counterexample: the value 2 under a patch maximum of 7 becomes 72
    (255*2/7 = 72.857... truncated); rounding gives 73. *)
Lemma whitepatch_balancing_two_sevenths :
  whitepatch_balancing sevens_image 0 0 1 2 =
    Ok [ [ [Some 72; Some 255; Some 255];
           [Some 255; Some 255; Some 255] ] ] /\
  balance_rounded 2 7 = 73.
Proof. split; vm_compute; reflexivity. Qed.

(** C2 (as amended).  No guard replaces a zero patch maximum: the divisor
    of every entry is the maximum of its channel as computed, zero
    included.  Divided by a zero maximum, the value 0 gives NaN, which the
    clip keeps and whose 8-bit conversion is undefined; a positive value
    gives plus infinity, which the clip turns into 1.0 and the scaling
    into 255. *)
Theorem whitepatch_zero_maximum :
  (forall p, uint8 p ->
     (p = 0 ->
      PrimFloat.is_nan (true_divide p 0) = true /\
      PrimFloat.is_nan (clip01 (true_divide p 0)) = true /\
      balance_entry p 0 = None) /\
     (p <> 0 ->
      PrimFloat.eqb (true_divide p 0) infinity = true /\
      PrimFloat.eqb (clip01 (true_divide p 0)) 1%float = true /\
      balance_entry p 0 = Some 255)) /\
  (forall image from_row from_column row_width column_width m,
     max_axis01 (image_patch image from_row from_column
                   row_width column_width) = Ok m ->
     image_max image from_row from_column row_width column_width =
       Ok (broadcast (fun p d => clip01 (true_divide p d)) image m) /\
     whitepatch_balancing image from_row from_column
       row_width column_width =
       Ok (broadcast balance_entry image m)).
Proof.
  split.
  - intros p Hp.
    pose proof (zero_divisor_entry_all Hp) as Hz.
    assert (H0 : uint8 0) by (unfold uint8; lia).
    pose proof (balance_entry_exact Hp H0) as Hb.
    unfold zero_divisor_entry in Hz. unfold balance_exact in Hb. simpl in Hb.
    split; intros Hp0.
    + subst p. repeat split; vm_compute; reflexivity.
    + apply Z.eqb_neq in Hp0. rewrite Hp0 in Hz, Hb.
      apply andb_true_iff in Hz. tauto.
  - intros. now apply whitepatch_balancing_unfold.
Qed.

Lemma whitepatch_zero_maximum_witness :
  (PrimFloat.eqb (true_divide 7 0) infinity = true /\
   PrimFloat.eqb (clip01 (true_divide 7 0)) 1%float = true /\
   balance_entry 7 0 = Some 255) /\
  image_max no_red_patch_image 0 0 1 1 =
    Ok (broadcast (fun p d => clip01 (true_divide p d))
          no_red_patch_image [0; 10; 20]) /\
  whitepatch_balancing no_red_patch_image 0 0 1 1 =
    Ok (broadcast balance_entry no_red_patch_image [0; 10; 20]).
Proof.
  destruct whitepatch_zero_maximum as [Hentry Himage].
  split.
  - apply (Hentry 7); [unfold uint8; lia | discriminate].
  - apply Himage. reflexivity.
Defined.

(** C2, counterexample: the patch is the first pixel, which has no red.
    The red maximum is 0 and stays 0; the red quotients are 0/0 = NaN and
    7/0 = infinity, so [image_max] holds a NaN; the balanced image has no
    defined red value at the first pixel, where a division by 1 would
    have given 0. *)
Lemma whitepatch_no_red_patch :
  max_axis01 (image_patch no_red_patch_image 0 0 1 1) = Ok [0; 10; 20] /\
  true_divide 0 0 = nan /\
  true_divide 7 0 = infinity /\
  image_max no_red_patch_image 0 0 1 1 =
    Ok [ [ [nan; 1%float; 1%float]; [1%float; 1%float; 1%float] ] ] /\
  whitepatch_balancing no_red_patch_image 0 0 1 1 =
    Ok [ [ [None; Some 255; Some 255];
           [Some 255; Some 255; Some 255] ] ] /\
  balance_entry 0 1 = Some 0.
Proof. repeat split; vm_compute; reflexivity. Qed.

(* ================================================================== *)
(** * Further properties of the code *)

(* ------------------------------------------------------------------ *)
(** ** Normalisation metadata: several units, unreadable units *)

Lemma getitem_nil_0 {A} : getitem (@nil A) 0 = Raise IndexError.
Proof. reflexivity. Qed.

Lemma normalization_loop_readable (pre : list ProcessUnit) :
  Forall readable_unit pre ->
  forall mean std, exists m0 s0, forall rest,
    normalization_loop (pre ++ rest) mean std =
    normalization_loop rest m0 s0.
Proof.
  induction 1 as [|u pre Hu _ IH]; intros mean std; simpl.
  - exists mean, std. reflexivity.
  - destruct (is_normalization u) eqn:Hn.
    + destruct (Hu Hn) as [Hm Hs].
      destruct (options_mean u) as [|m ms]; [congruence|].
      destruct (options_std u) as [|s ss]; [congruence|].
      rewrite !getitem_cons_0. simpl. apply IH.
    + apply IH.
Qed.

Lemma normalization_loop_Ok_readable (units : list ProcessUnit)
    (mean std : Q) (r : Q * Q) :
  normalization_loop units mean std = Ok r -> Forall readable_unit units.
Proof.
  revert mean std. induction units as [|u units IH]; intros mean std; simpl;
    [constructor|].
  destruct (is_normalization u) eqn:Hn.
  - destruct (options_mean u) as [|m ms] eqn:Hm; [discriminate|].
    destruct (options_std u) as [|s ss] eqn:Hs;
      [rewrite getitem_cons_0; discriminate|].
    rewrite !getitem_cons_0. simpl. intros H. constructor; [|eapply IH; eauto].
    intros _. rewrite Hm, Hs. split; discriminate.
  - intros H. constructor; [|eapply IH; eauto].
    intros Hn'. congruence.
Qed.

(** X1.  When several units are normalisation units the loop overwrites
    [mean] and [std] each time: the values returned are the first entries
    of the arrays of the last normalisation unit. *)
Theorem normalization_last_unit_wins (pre post : list ProcessUnit)
    (u : ProcessUnit) (m s : Q) (ms ss : list Q) :
  Forall readable_unit pre ->
  is_normalization u = true ->
  options_mean u = m :: ms ->
  options_std u = s :: ss ->
  no_normalization post ->
  normalization (pre ++ u :: post) = Ok (m, s).
Proof.
  intros Hpre Hu Hm Hs Hpost. unfold normalization.
  destruct (normalization_loop_readable Hpre 0%Q 1%Q) as (m0 & s0 & Hloop).
  rewrite Hloop. simpl. rewrite Hu, Hm, Hs, !getitem_cons_0. simpl.
  now apply normalization_loop_skip.
Qed.

Lemma normalization_last_unit_wins_witness :
  normalization
    ([ {| options_type := "NormalizationOptions";
          options_mean := [0%Q]; options_std := [255%Q] |} ] ++
     {| options_type := "NormalizationOptions";
        options_mean := [255 # 2]%Q; options_std := [255 # 2]%Q |} ::
     [ {| options_type := "ScoreThresholdingOptions";
          options_mean := []; options_std := [] |} ])
  = Ok ((255 # 2)%Q, (255 # 2)%Q).
Proof.
  apply normalization_last_unit_wins with (ms := []) (ss := []);
    try reflexivity.
  - repeat constructor; discriminate.
  - repeat constructor.
Defined.

(** X2.  For process units that carry the keys the loop reads, reading
    the metadata succeeds exactly when every normalisation unit has a
    non-empty [mean] and a non-empty [std] array (the [[0]] of an empty
    array stops the constructor). *)
Theorem normalization_succeeds_iff_readable (units : list ProcessUnit) :
  (exists r, normalization units = Ok r) <-> Forall readable_unit units.
Proof.
  split.
  - intros [r Hr]. eapply normalization_loop_Ok_readable; eauto.
  - intros H. unfold normalization.
    destruct (normalization_loop_readable H 0%Q 1%Q) as (m0 & s0 & Hloop).
    specialize (Hloop []). rewrite app_nil_r in Hloop.
    rewrite Hloop. simpl. eauto.
Qed.

Example normalization_empty_std :
  normalization
    [ {| options_type := "NormalizationOptions";
         options_mean := [1%Q]; options_std := [] |} ]
  = Raise IndexError.
Proof. reflexivity. Qed.

(* ------------------------------------------------------------------ *)
(** ** Output binding does not depend on the order of the outputs *)

Lemma ascending_unique (l l' : list Z) :
  StronglySorted Z.le l -> StronglySorted Z.le l' ->
  Permutation l l' -> l = l'.
Proof.
  intros Hl. revert l'.
  induction Hl as [|a l Hs IH Ha]; intros l' Hl' Hp.
  - apply Permutation_nil in Hp. now subst.
  - destruct Hl' as [|b l' Hs' Hb].
    + apply Permutation_sym, Permutation_nil in Hp. discriminate.
    + assert (Hab : a = b).
      { rewrite Forall_forall in Ha, Hb.
        assert (Hin1 : In a (b :: l'))
          by (apply (Permutation_in _ Hp); now left).
        assert (Hin2 : In b (a :: l))
          by (apply (Permutation_in _ (Permutation_sym Hp)); now left).
        destruct Hin1 as [->|Hin1]; [reflexivity|].
        destruct Hin2 as [->|Hin2]; [reflexivity|].
        specialize (Ha b Hin2). specialize (Hb a Hin1). lia. }
      subst b. f_equal. apply IH; [assumption|].
      now apply Permutation_cons_inv in Hp.
Qed.

(** X3.  The binding depends only on which output indices the model has,
    not on the order in which the interpreter lists them. *)
Theorem bind_output_indices_order_free (l l' : list Z) :
  Permutation l l' ->
  bind_output_indices l = bind_output_indices l'.
Proof.
  intros Hp. unfold bind_output_indices.
  replace (sorted Z.ltb l') with (sorted Z.ltb l); [reflexivity|].
  apply ascending_unique; try apply sorted_ltb_ascending.
  rewrite <- (sorted_perm Z.ltb l), <- (sorted_perm Z.ltb l'). exact Hp.
Qed.

Lemma bind_output_indices_order_free_witness :
  bind_output_indices [601; 598; 600; 599] =
  bind_output_indices [598; 599; 600; 601].
Proof.
  apply bind_output_indices_order_free.
  exact (sorted_perm Z.ltb [601; 598; 600; 599]).
Defined.

(* ------------------------------------------------------------------ *)
(** ** The label list *)

Section Fields.
Variable sep : N -> bool.

Lemma rev_nonempty (a : N) (acc : text) : rev (a :: acc) <> [].
Proof.
  intros Hnil. apply (f_equal (@List.length N)) in Hnil.
  rewrite length_rev in Hnil. discriminate.
Qed.

Lemma fields_go_pieces (s acc : text) :
  Forall (fun c => sep c = false) acc ->
  Forall (piece sep) (fields_go sep acc s).
Proof.
  revert acc. induction s as [|c s IH]; intros acc Hacc; simpl.
  - destruct acc as [|a acc']; [constructor|].
    constructor; [|constructor].
    split; [apply rev_nonempty | now apply Forall_rev].
  - destruct (sep c) eqn:Hc.
    + destruct acc as [|a acc']; [apply IH; constructor|].
      constructor; [|apply IH; constructor].
      split; [apply rev_nonempty | now apply Forall_rev].
    + apply IH. now constructor.
Qed.

Lemma fields_go_piece (l rest acc : text) :
  Forall (fun c => sep c = false) l ->
  fields_go sep acc (l ++ rest) = fields_go sep (rev l ++ acc) rest.
Proof.
  revert acc. induction l as [|c l IH]; intros acc Hl; [reflexivity|].
  apply Forall_cons_iff in Hl. destruct Hl as [Hc Hl].
  simpl. rewrite Hc, IH by assumption. now rewrite <- app_assoc.
Qed.

Lemma fields_go_separators (t rest : text) :
  Forall (fun c => sep c = true) t ->
  fields_go sep [] (t ++ rest) = fields_go sep [] rest.
Proof.
  induction 1 as [|c t Hc _ IH]; [reflexivity|].
  simpl. now rewrite Hc.
Qed.

Lemma fields_go_cons (l t rest : text) :
  piece sep l -> separators sep t ->
  fields_go sep [] (l ++ t ++ rest) = l :: fields_go sep [] rest.
Proof.
  intros [Hne Hl] [Hne' Ht].
  rewrite fields_go_piece by assumption. rewrite app_nil_r.
  destruct t as [|c t]; [congruence|].
  apply Forall_cons_iff in Ht. destruct Ht as [Hc Ht].
  simpl. rewrite Hc.
  destruct (rev l) as [|a r] eqn:Hr.
  - apply (f_equal (@List.length N)) in Hr. rewrite length_rev in Hr.
    destruct l; [congruence | discriminate].
  - rewrite <- Hr, rev_involutive. apply f_equal.
    now apply fields_go_separators.
Qed.

Lemma fields_go_last (l : text) :
  piece sep l -> fields_go sep [] l = [l].
Proof.
  intros [Hne Hl].
  rewrite <- (app_nil_r l) at 1. rewrite fields_go_piece by assumption.
  rewrite app_nil_r. simpl.
  destruct (rev l) as [|a r] eqn:Hr.
  - apply (f_equal (@List.length N)) in Hr. rewrite length_rev in Hr.
    destruct l; [congruence | discriminate].
  - now rewrite <- Hr, rev_involutive.
Qed.
End Fields.

Lemma nonempty_rev (acc : text) :
  (0 <? List.length (rev acc))%nat =
  match acc with
  | [] => false
  | _ :: _ => true
  end.
Proof.
  rewrite length_rev. destruct acc; reflexivity.
Qed.

(** The non-empty lines of a text are its pieces between line
    boundaries. *)
Lemma splitlines_go_fields (n : nat) (s acc : text) :
  (List.length s <= n)%nat ->
  filter (fun x => (0 <? List.length x)%nat) (splitlines_go acc s) =
  fields_go is_linebreak acc s.
Proof.
  revert s acc. induction n as [|n IH]; intros s acc Hn.
  - destruct s; [|simpl in Hn; lia].
    cbn [splitlines_go fields_go].
    destruct acc as [|a acc']; [reflexivity|].
    cbn [filter]. rewrite (nonempty_rev (a :: acc')). reflexivity.
  - destruct s as [|c s]; cbn [splitlines_go fields_go].
    + destruct acc as [|a acc']; [reflexivity|].
      cbn [filter]. rewrite (nonempty_rev (a :: acc')). reflexivity.
    + simpl in Hn. destruct (is_linebreak c) eqn:Hc.
      * cbn [filter]. rewrite nonempty_rev.
        assert (Hrest :
          filter (fun x => (0 <? List.length x)%nat)
            match s with
            | [] => []
            | c' :: s'' =>
                if ((c =? 13) && (c' =? 10))%N then splitlines_go [] s''
                else splitlines_go [] s
            end = fields_go is_linebreak [] s).
        { destruct s as [|c' s'']; [reflexivity|].
          destruct ((c =? 13) && (c' =? 10))%N eqn:Hcr.
          - apply andb_true_iff in Hcr. destruct Hcr as [_ Hlf].
            apply N.eqb_eq in Hlf. subst c'.
            rewrite IH by (simpl in Hn; lia). reflexivity.
          - apply IH. lia. }
        rewrite Hrest. destruct acc; reflexivity.
      * apply IH. lia.
Qed.

Lemma label_list_of_fields (label_map_file : text) :
  label_list_of label_map_file = fields_go is_linebreak [] label_map_file.
Proof.
  unfold label_list_of, splitlines.
  now apply splitlines_go_fields with (n := List.length label_map_file).
Qed.

(** X4.  Every label read from the label file is non-empty and holds no
    line boundary: blank lines never take a class index. *)
Theorem label_list_of_labels (label_map_file : text) :
  Forall (piece is_linebreak) (label_list_of label_map_file).
Proof.
  rewrite label_list_of_fields. apply fields_go_pieces. constructor.
Qed.

Lemma label_list_of_entries (entries : list (text * text)) (rest : text) :
  Forall (fun e => piece is_linebreak (fst e) /\
                   separators is_linebreak (snd e)) entries ->
  label_list_of (write_labels entries ++ rest) =
  map fst entries ++ label_list_of rest.
Proof.
  rewrite !label_list_of_fields.
  induction 1 as [|[l t] entries [Hl Ht] _ IH]; [reflexivity|].
  unfold write_labels in *. simpl in *.
  rewrite <- !app_assoc. rewrite fields_go_cons by assumption.
  now rewrite IH.
Qed.

(** X5.  A file that lists labels one per line, each followed by one or
    more line boundaries (LF, CR LF, blank lines in between), is read back
    as exactly those labels in order, so that the position of a label is
    its class index; a last label without a line ending is read too. *)
Theorem label_list_of_written (entries : list (text * text)) (last : text) :
  Forall (fun e => piece is_linebreak (fst e) /\
                   separators is_linebreak (snd e)) entries ->
  label_list_of (write_labels entries) = map fst entries /\
  (piece is_linebreak last ->
   label_list_of (write_labels entries ++ last) = map fst entries ++ [last]).
Proof.
  intros H. split.
  - rewrite <- (app_nil_r (write_labels entries)).
    rewrite label_list_of_entries by assumption.
    now rewrite app_nil_r.
  - intros Hlast. rewrite label_list_of_entries by assumption.
    now rewrite label_list_of_fields, fields_go_last.
Qed.

Lemma label_list_of_written_witness :
  label_list_of
    (write_labels [ (text_of "fish", [13; 10]%N);
                    (text_of "shark", [10; 10]%N) ]) =
  map fst [ (text_of "fish", [13; 10]%N); (text_of "shark", [10; 10]%N) ] /\
  (piece is_linebreak (text_of "ray") ->
   label_list_of
     (write_labels [ (text_of "fish", [13; 10]%N);
                     (text_of "shark", [10; 10]%N) ] ++ text_of "ray") =
   map fst [ (text_of "fish", [13; 10]%N); (text_of "shark", [10; 10]%N) ]
   ++ [text_of "ray"]).
Proof.
  apply label_list_of_written.
  repeat constructor; discriminate.
Defined.

Example label_list_of_example :
  label_list_of (text_of "fish" ++ [13; 10]%N ++ text_of "shark" ++
                 [10; 10]%N ++ text_of "ray") =
  [text_of "fish"; text_of "shark"; text_of "ray"] /\
  label_list_of [] = [] /\
  label_list_of [10; 13; 10]%N = [].
Proof. repeat split. Qed.

(* ------------------------------------------------------------------ *)
(** ** [_postprocess]: bounds, order and label lists of the result *)

Lemma range_nonpos (count : Z) : count <= 0 -> range count = [].
Proof.
  intros H. unfold range. destruct count; try reflexivity. lia.
Qed.

Lemma range_length (count : Z) : List.length (range count) = Z.to_nat count.
Proof. unfold range. now rewrite length_map, length_seq. Qed.

Lemma postprocess_inv o labels boxes classes scores count w h r :
  _postprocess o labels boxes classes scores count w h = Ok r ->
  exists ds,
    Forall2 (emitted o labels boxes classes scores w h)
            (filter (above_threshold o scores) (range count)) ds /\
    Forall single_category ds /\
    r = truncate_stage o (allow_stage o (deny_stage o (sort_stage ds))).
Proof.
  unfold _postprocess, parse_outputs. intros H.
  apply bind_Ok_inv in H. destruct H as [ds [Hds Hrank]].
  apply parse_loop_inv in Hds. destruct Hds as [ds' [-> Hem]]. simpl in *.
  assert (Hsingle : Forall single_category ds').
  { apply Forall_forall. intros d Hd.
    destruct (@Forall2_In_r _ _ _ _ _ d Hem Hd) as [i [_ Hi]].
    now apply emitted_top_score in Hi. }
  rewrite rank_stages in Hrank by assumption. injection Hrank as <-.
  exists ds'. auto.
Qed.

(** X6.  With a detection count of zero or less the tensors are never
    read: the result is the empty list, whatever the tensors hold. *)
Theorem postprocess_no_rows o labels boxes classes scores count w h :
  count <= 0 ->
  _postprocess o labels boxes classes scores count w h = Ok [].
Proof.
  intros Hc. unfold _postprocess, parse_outputs.
  rewrite range_nonpos by assumption. simpl.
  rewrite rank_stages by constructor.
  unfold sort_stage, deny_stage, allow_stage, truncate_stage. simpl.
  destruct (label_deny_list o), (label_allow_list o),
    (0 <? max_results o); simpl; now rewrite ?firstn_nil.
Qed.

Lemma postprocess_no_rows_witness :
  _postprocess (options_with (1 # 2) None (Some ["shark"%string]) 3)
    fish_shark [] [] [] 0 200 100 = Ok [].
Proof. apply postprocess_no_rows. lia. Defined.

(** X7.  A detection count larger than the number of scores runs the loop
    past the end of [scores]: the call raises [IndexError] and returns no
    partial list. *)
Theorem postprocess_count_past_scores o labels boxes classes scores
    count w h :
  Z.of_nat (List.length scores) < count ->
  _postprocess o labels boxes classes scores count w h = Raise IndexError.
Proof.
  intros Hc. unfold _postprocess, parse_outputs.
  rewrite (@parse_loop_raises o labels boxes classes scores w h
             (range count) [] (Z.of_nat (List.length scores)));
    [reflexivity | apply In_range; lia |].
  unfold parse_detection. rewrite getitem_out_of_range by lia. reflexivity.
Qed.

Lemma postprocess_count_past_scores_witness :
  _postprocess (options_with (1 # 2) None None (-1)) fish_shark
    example_boxes [0; 1]%Q [9 # 10; 8 # 10]%Q 3 200 100 = Raise IndexError.
Proof. apply postprocess_count_past_scores. simpl. lia. Defined.

Lemma StronglySorted_filter {A} (R : A -> A -> Prop) (p : A -> bool)
    (l : list A) :
  StronglySorted R l -> StronglySorted R (filter p l).
Proof.
  induction 1 as [|a l Hs IH Ha]; simpl; [constructor|].
  destruct (p a); [|assumption].
  constructor; [assumption | now apply Forall_filter_keep].
Qed.

Lemma StronglySorted_firstn {A} (R : A -> A -> Prop) (n : nat)
    (l : list A) :
  StronglySorted R l -> StronglySorted R (firstn n l).
Proof.
  intros H. revert n. induction H as [|a l Hs IH Ha]; intros [|n]; simpl;
    try constructor; [apply IH | now apply Forall_firstn_keep].
Qed.

Lemma stages_sorted (R : Detection -> Detection -> Prop)
    (o : ObjectDetectorOptions) (s : list Detection) :
  StronglySorted R s ->
  StronglySorted R (truncate_stage o (allow_stage o (deny_stage o s))).
Proof.
  intros H.
  assert (H1 : StronglySorted R (deny_stage o s)).
  { unfold deny_stage. destruct (label_deny_list o);
      [now apply StronglySorted_filter | assumption]. }
  assert (H2 : StronglySorted R (allow_stage o (deny_stage o s))).
  { unfold allow_stage. destruct (label_allow_list o);
      [now apply StronglySorted_filter | assumption]. }
  unfold truncate_stage. destruct (0 <? max_results o);
    [now apply StronglySorted_firstn | assumption].
Qed.

(** X8.  The list returned is in order of non-increasing score, and every
    detection in it scores at least the threshold. *)
Theorem postprocess_sorted_above_threshold o labels boxes classes scores
    count w h (r : list Detection) :
  _postprocess o labels boxes classes scores count w h = Ok r ->
  StronglySorted (fun a b => (top_score b <= top_score a)%Q) r /\
  Forall (fun d => (score_threshold o <= top_score d)%Q) r.
Proof.
  intros H. apply postprocess_inv in H.
  destruct H as (ds & Hem & Hsingle & ->). split.
  - apply stages_sorted.
    now destruct (sort_stage_stable_descending ds) as (_ & Hs & _).
  - apply stages_keep. apply Forall_forall. intros d Hd.
    destruct (@Forall2_In_r _ _ _ _ _ d Hem Hd) as [i [_ Hi]].
    now apply emitted_top_score in Hi.
Qed.

Lemma postprocess_sorted_above_threshold_witness :
  StronglySorted (fun a b => (top_score b <= top_score a)%Q)
    [ {| bounding_box :=
           {| left := 0; top := 0; right := 200; bottom := 100 |};
         categories :=
           [ {| label := "shark"; score := 9 # 10; index := 1 |} ] |};
      {| bounding_box :=
           {| left := 40; top := 10; right := 120; bottom := 50 |};
         categories :=
           [ {| label := "fish"; score := 8 # 10; index := 0 |} ] |} ] /\
  Forall
    (fun d => (score_threshold (options_with (1 # 2) None None (-1))
               <= top_score d)%Q)
    [ {| bounding_box :=
           {| left := 0; top := 0; right := 200; bottom := 100 |};
         categories :=
           [ {| label := "shark"; score := 9 # 10; index := 1 |} ] |};
      {| bounding_box :=
           {| left := 40; top := 10; right := 120; bottom := 50 |};
         categories :=
           [ {| label := "fish"; score := 8 # 10; index := 0 |} ] |} ].
Proof.
  apply (@postprocess_sorted_above_threshold
           (options_with (1 # 2) None None (-1))
           fish_shark example_boxes [0; 1; 0]%Q [8 # 10; 9 # 10; 3 # 10]%Q
           3 200 100).
  reflexivity.
Defined.

Lemma existsb_eqb_In (s : string) (l : list string) :
  existsb (String.eqb s) l = true <-> In s l.
Proof.
  rewrite existsb_exists. split.
  - intros [x [Hx Heq]]. apply String.eqb_eq in Heq. now subst.
  - intros H. exists s. split; [assumption | apply String.eqb_refl].
Qed.

(** X9.  No detection returned carries a label of the deny list, and when
    an allow list is configured every detection returned carries one of
    its labels: a label missing from the allow list never appears, denied
    or not. *)
Theorem postprocess_respects_lists o labels boxes classes scores
    count w h (r : list Detection) :
  _postprocess o labels boxes classes scores count w h = Ok r ->
  Forall (fun d =>
            (forall deny, label_deny_list o = Some deny ->
               ~ In (top_label d) deny) /\
            (forall allow, label_allow_list o = Some allow ->
               In (top_label d) allow)) r.
Proof.
  intros H. apply postprocess_inv in H.
  destruct H as (ds & _ & _ & ->).
  set (s := sort_stage ds). clearbody s.
  assert (Hdeny : Forall (fun d => forall deny,
                    label_deny_list o = Some deny ->
                    ~ In (top_label d) deny) (deny_stage o s)).
  { unfold deny_stage. destruct (label_deny_list o) as [deny|].
    - apply Forall_forall. intros d Hd deny' [= <-] Hin.
      apply filter_In in Hd. destruct Hd as [_ Hd].
      apply existsb_eqb_In in Hin. rewrite Hin in Hd. discriminate.
    - apply Forall_forall. intros d _ deny' Hd. discriminate. }
  assert (Hallow : Forall (fun d => forall allow,
                     label_allow_list o = Some allow ->
                     In (top_label d) allow)
                     (allow_stage o (deny_stage o s))).
  { unfold allow_stage. destruct (label_allow_list o) as [allow|].
    - apply Forall_forall. intros d Hd allow' [= <-].
      apply filter_In in Hd. destruct Hd as [_ Hd].
      now apply existsb_eqb_In.
    - apply Forall_forall. intros d _ allow' Hd. discriminate. }
  assert (Hboth : Forall (fun d =>
            (forall deny, label_deny_list o = Some deny ->
               ~ In (top_label d) deny) /\
            (forall allow, label_allow_list o = Some allow ->
               In (top_label d) allow))
            (allow_stage o (deny_stage o s))).
  { rewrite Forall_forall in *. intros d Hd. split; [|now apply Hallow].
    apply Hdeny. unfold allow_stage in Hd.
    destruct (label_allow_list o); [|assumption].
    now apply filter_In in Hd. }
  unfold truncate_stage. destruct (0 <? max_results o);
    [now apply Forall_firstn_keep | assumption].
Qed.

Lemma postprocess_respects_lists_witness :
  Forall (fun d =>
            (forall deny,
               label_deny_list
                 (options_with (1 # 2) (Some ["fish"%string])
                    (Some ["shark"%string; "fish"%string]) (-1))
               = Some deny -> ~ In (top_label d) deny) /\
            (forall allow,
               label_allow_list
                 (options_with (1 # 2) (Some ["fish"%string])
                    (Some ["shark"%string; "fish"%string]) (-1))
               = Some allow -> In (top_label d) allow))
    [ {| bounding_box :=
           {| left := 0; top := 0; right := 200; bottom := 100 |};
         categories :=
           [ {| label := "shark"; score := 9 # 10; index := 1 |} ] |} ].
Proof.
  apply (@postprocess_respects_lists
           (options_with (1 # 2) (Some ["fish"%string])
              (Some ["shark"%string; "fish"%string]) (-1))
           fish_shark example_boxes [0; 1; 0]%Q [8 # 10; 9 # 10; 3 # 10]%Q
           3 200 100).
  reflexivity.
Defined.

Lemma stages_length (o : ObjectDetectorOptions) (ds : list Detection) :
  (List.length (truncate_stage o
                  (allow_stage o (deny_stage o (sort_stage ds))))
   <= List.length ds)%nat.
Proof.
  assert (H1 : List.length (sort_stage ds) = List.length ds)
    by apply sorted_length.
  assert (H2 : (List.length (deny_stage o (sort_stage ds))
                <= List.length (sort_stage ds))%nat).
  { unfold deny_stage. destruct (label_deny_list o);
      [apply filter_length_le | lia]. }
  assert (H3 : (List.length (allow_stage o (deny_stage o (sort_stage ds)))
                <= List.length (deny_stage o (sort_stage ds)))%nat).
  { unfold allow_stage. destruct (label_allow_list o);
      [apply filter_length_le | lia]. }
  assert (H4 : (List.length
                  (truncate_stage o
                     (allow_stage o (deny_stage o (sort_stage ds))))
                <= List.length
                     (allow_stage o (deny_stage o (sort_stage ds))))%nat).
  { unfold truncate_stage. destruct (0 <? max_results o); [|lia].
    rewrite length_firstn. lia. }
  lia.
Qed.

(** X10.  The call never returns more detections than the count it is
    given, and every detection returned was decoded from a row of
    [range(count)] that clears the threshold. *)
Theorem postprocess_within_count o labels boxes classes scores
    count w h (r : list Detection) :
  _postprocess o labels boxes classes scores count w h = Ok r ->
  (List.length r <= Z.to_nat count)%nat /\
  Forall (fun d => exists i,
            0 <= i < count /\
            emitted o labels boxes classes scores w h i d) r.
Proof.
  intros H. apply postprocess_inv in H.
  destruct H as (ds & Hem & _ & ->). split.
  - pose proof (stages_length o ds) as Hlen.
    pose proof (Forall2_length Hem) as Hds.
    pose proof (filter_length_le (above_threshold o scores) (range count))
      as Hf.
    rewrite range_length in Hf. lia.
  - apply stages_keep. apply Forall_forall. intros d Hd.
    destruct (@Forall2_In_r _ _ _ _ _ d Hem Hd) as [i [Hi Hemi]].
    exists i. split; [|assumption].
    apply filter_In in Hi. now apply In_range.
Qed.

Lemma postprocess_within_count_witness :
  (List.length
     [ {| bounding_box :=
            {| left := 0; top := 0; right := 200; bottom := 100 |};
          categories :=
            [ {| label := "shark"; score := 9 # 10; index := 1 |} ] |} ]
   <= Z.to_nat 3)%nat /\
  Forall (fun d => exists i,
            0 <= i < 3 /\
            emitted (options_with (1 # 2) (Some ["fish"%string]) None (-1))
              fish_shark example_boxes [0; 1; 0]%Q
              [8 # 10; 9 # 10; 3 # 10]%Q 200 100 i d)
    [ {| bounding_box :=
           {| left := 0; top := 0; right := 200; bottom := 100 |};
         categories :=
           [ {| label := "shark"; score := 9 # 10; index := 1 |} ] |} ].
Proof.
  apply (@postprocess_within_count
           (options_with (1 # 2) (Some ["fish"%string]) None (-1))
           fish_shark example_boxes [0; 1; 0]%Q [8 # 10; 9 # 10; 3 # 10]%Q
           3 200 100).
  reflexivity.
Defined.

(* ------------------------------------------------------------------ *)
(** ** Ranking a ranked list *)

Lemma sorted_of_sorted {A} (lt : A -> A -> bool) (l : list A) :
  StronglySorted (fun a b => lt b a = false) l -> sorted lt l = l.
Proof.
  induction 1 as [|a l Hs IH Ha]; [reflexivity|].
  simpl. rewrite IH. destruct l as [|b l]; [reflexivity|].
  simpl. apply Forall_cons_iff in Ha. destruct Ha as [Hb _].
  now rewrite Hb.
Qed.

Lemma filter_all {A} (p : A -> bool) (l : list A) :
  Forall (fun a => p a = true) l -> filter p l = l.
Proof.
  induction 1 as [|a l Ha _ IH]; simpl; [reflexivity|].
  now rewrite Ha, IH.
Qed.

Lemma filter_holds {A} (p : A -> bool) (l : list A) :
  Forall (fun a => p a = true) (filter p l).
Proof.
  apply Forall_forall. intros a Ha. now apply filter_In in Ha.
Qed.

Lemma stages_fixed (o : ObjectDetectorOptions) (ds : list Detection) :
  let r := truncate_stage o
             (allow_stage o (deny_stage o (sort_stage ds))) in
  truncate_stage o (allow_stage o (deny_stage o (sort_stage r))) = r.
Proof.
  intros r.
  assert (Hsorted : sort_stage r = r).
  { apply sorted_of_sorted. unfold r. apply stages_sorted.
    apply sorted_sorted; [exact higher_score_asym|].
    intros a b c Hba Hcb. apply higher_score_false in Hba, Hcb.
    apply higher_score_false. now apply Qle_trans with (top_score b). }
  assert (Hdeny : deny_stage o r = r).
  { unfold deny_stage at 1. destruct (label_deny_list o) as [deny|] eqn:Hd;
      [|reflexivity].
    apply filter_all. unfold r, truncate_stage, allow_stage.
    assert (H0 : Forall
      (fun d => negb (existsb (String.eqb (top_label d)) deny) = true)
      (deny_stage o (sort_stage ds))).
    { unfold deny_stage. rewrite Hd. apply filter_holds. }
    destruct (0 <? max_results o), (label_allow_list o);
      repeat first [apply Forall_firstn_keep | apply Forall_filter_keep];
      exact H0. }
  assert (Hallow : allow_stage o r = r).
  { unfold allow_stage at 1. destruct (label_allow_list o) as [allow|] eqn:Ha;
      [|reflexivity].
    apply filter_all. unfold r, truncate_stage.
    assert (H0 : Forall
      (fun d => existsb (String.eqb (top_label d)) allow = true)
      (allow_stage o (deny_stage o (sort_stage ds)))).
    { unfold allow_stage. rewrite Ha. apply filter_holds. }
    destruct (0 <? max_results o);
      [apply Forall_firstn_keep|]; exact H0. }
  rewrite Hsorted, Hdeny, Hallow.
  unfold r, truncate_stage. destruct (0 <? max_results o); [|reflexivity].
  rewrite firstn_firstn. now rewrite Nat.min_id.
Qed.

(** X11.  Ranking is idempotent: the list the ranker returns is already in
    its final order and passes both label filters and the cut, so ranking
    it again with the same options returns it unchanged. *)
Theorem rank_idempotent (o : ObjectDetectorOptions)
    (results ranked : list Detection) :
  Forall single_category results ->
  rank o results = Ok ranked ->
  rank o ranked = Ok ranked.
Proof.
  intros Hres Hrank.
  rewrite rank_stages in Hrank by assumption. injection Hrank as <-.
  rewrite rank_stages by now apply stages_keep.
  f_equal. apply stages_fixed.
Qed.

Lemma rank_idempotent_witness :
  rank (options_with (1 # 2) (Some ["fish"%string]) None 2)
       [ detection_of "shark" (9 # 10) 1;
         detection_of "shark" (18 # 20) 1 ]
  = Ok [ detection_of "shark" (9 # 10) 1;
         detection_of "shark" (18 # 20) 1 ].
Proof.
  apply (@rank_idempotent
           (options_with (1 # 2) (Some ["fish"%string]) None 2)
           [ detection_of "fish" (8 # 10) 0;
             detection_of "shark" (9 # 10) 1;
             detection_of "penguin" (7 # 10) 2;
             detection_of "shark" (18 # 20) 1 ]).
  - repeat constructor.
  - reflexivity.
Defined.

(* ------------------------------------------------------------------ *)
(** ** [visualize]: lists drawn in turn, and a detection without category *)

Section VisualizeMore.
Variable cv2_rectangle : ndarray -> point -> point -> color -> Z -> ndarray.
Variable cv2_putText :
  ndarray -> string -> point -> Z -> Z -> color -> Z -> ndarray.
Variable str_round2 : Q -> string.

Lemma visualize_loop_app (d1 d2 : list Detection)
    (text_color box_color : color) (h : heap) (image : ref) :
  visualize_loop cv2_rectangle cv2_putText str_round2
    h image (d1 ++ d2) text_color box_color =
  match visualize_loop cv2_rectangle cv2_putText str_round2
          h image d1 text_color box_color with
  | (h1, Ok _) =>
      visualize_loop cv2_rectangle cv2_putText str_round2
        h1 image d2 text_color box_color
  | (h1, Raise e) => (h1, Raise e)
  end.
Proof.
  revert h. induction d1 as [|d d1 IH]; intros h; simpl; [reflexivity|].
  destruct (getitem (categories d) 0) as [c|e]; [apply IH | reflexivity].
Qed.

Lemma paint_app (d1 d2 : list Detection) (text_color box_color : color)
    (a : ndarray) :
  paint cv2_rectangle cv2_putText str_round2 (d1 ++ d2)
    text_color box_color a =
  paint cv2_rectangle cv2_putText str_round2 d2 text_color box_color
    (paint cv2_rectangle cv2_putText str_round2 d1 text_color box_color a).
Proof.
  revert a. induction d1 as [|d d1 IH]; intros a; simpl; [reflexivity|].
  apply IH.
Qed.
End VisualizeMore.

(** X12.  Drawing a concatenated list is drawing the first list and then
    the second on the buffer the first call returned: the heap and the
    result are the same, and when the first list raises, nothing of the
    second is drawn. *)
Theorem visualize_concat
    (cv2_rectangle : ndarray -> point -> point -> color -> Z -> ndarray)
    (cv2_putText :
       ndarray -> string -> point -> Z -> Z -> color -> Z -> ndarray)
    (str_round2 : Q -> string)
    (h : heap) (image : ref) (d1 d2 : list Detection)
    (text_color box_color : color) :
  visualize cv2_rectangle cv2_putText str_round2
    h image (d1 ++ d2) text_color box_color =
  match visualize cv2_rectangle cv2_putText str_round2
          h image d1 text_color box_color with
  | (h1, Ok image1) =>
      visualize cv2_rectangle cv2_putText str_round2
        h1 image1 d2 text_color box_color
  | (h1, Raise e) => (h1, Raise e)
  end.
Proof.
  unfold visualize. rewrite visualize_loop_app.
  destruct (visualize_loop cv2_rectangle cv2_putText str_round2
              h image d1 text_color box_color) as [h1 [u|e]]; reflexivity.
Qed.

(** X13.  A detection without a category makes [visualize] raise
    [IndexError] at its label, after its rectangle has been painted: the
    buffer keeps the paint of all earlier detections and that rectangle,
    and none of the later detections. *)
Theorem visualize_missing_category
    (cv2_rectangle : ndarray -> point -> point -> color -> Z -> ndarray)
    (cv2_putText :
       ndarray -> string -> point -> Z -> Z -> color -> Z -> ndarray)
    (str_round2 : Q -> string)
    (h : heap) (image : ref) (a : ndarray)
    (pre post : list Detection) (d : Detection)
    (text_color box_color : color) :
  nth_error h image = Some a ->
  Forall single_category pre ->
  categories d = [] ->
  exists h',
    visualize cv2_rectangle cv2_putText str_round2
      h image (pre ++ d :: post) text_color box_color =
      (h', Raise IndexError) /\
    nth_error h' image =
      Some (draw_box cv2_rectangle d box_color
              (paint cv2_rectangle cv2_putText str_round2
                 pre text_color box_color a)) /\
    List.length h' = List.length h /\
    (forall r, r <> image -> nth_error h' r = nth_error h r).
Proof.
  intros Ha Hpre Hd.
  destruct (@visualize_loop_paints cv2_rectangle cv2_putText str_round2
              pre text_color box_color h image a Ha Hpre)
    as (h1 & Hloop & Hlen & Himg & Hframe).
  exists (modify h1 image (draw_box cv2_rectangle d box_color)).
  unfold visualize. rewrite visualize_loop_app, Hloop.
  simpl. rewrite Hd, getitem_nil_0. simpl.
  split; [reflexivity|]. split; [|split].
  - now apply update_at_same.
  - unfold modify. now rewrite update_at_length.
  - intros r Hr. unfold modify. rewrite update_at_other by assumption.
    now apply Hframe.
Qed.

Lemma visualize_missing_category_witness :
  exists h',
    visualize corners_rectangle origin_putText (fun _ => "0.9"%string)
      [black_2x2] 0%nat
      ([unit_detection] ++
       {| bounding_box :=
            {| left := 1; top := 0; right := 1; bottom := 0 |};
          categories := [] |} :: [unit_detection])
      (255, 255, 255) (34, 143, 34) = (h', Raise IndexError) /\
    nth_error h' 0%nat =
      Some (draw_box corners_rectangle
              {| bounding_box :=
                   {| left := 1; top := 0; right := 1; bottom := 0 |};
                 categories := [] |} (34, 143, 34)
              (paint corners_rectangle origin_putText
                 (fun _ => "0.9"%string) [unit_detection]
                 (255, 255, 255) (34, 143, 34) black_2x2)) /\
    List.length h' = List.length [black_2x2] /\
    (forall r, r <> 0%nat -> nth_error h' r = nth_error [black_2x2] r).
Proof.
  apply visualize_missing_category;
    [reflexivity | repeat constructor | reflexivity].
Defined.

(* ------------------------------------------------------------------ *)
(** ** White-patch balancing: empty patches, white patches, order, shape *)

Lemma slice_no_width {A} (l : list A) (a : Z) : slice l a (a + 0) = [].
Proof.
  unfold slice. rewrite Z.add_0_r, Z.sub_diag. reflexivity.
Qed.

Lemma slice_past_end {A} (l : list A) (a b : Z) :
  Z.of_nat (List.length l) <= a -> slice l a b = [].
Proof.
  intros Ha. unfold slice.
  assert (Hb : slice_bound (Z.of_nat (List.length l)) a =
               Z.of_nat (List.length l)).
  { unfold slice_bound.
    destruct (a <? 0) eqn:Hneg; [apply Z.ltb_lt in Hneg; lia | lia]. }
  rewrite Hb, Nat2Z.id, skipn_all. apply firstn_nil.
Qed.

Lemma concat_all_nil {A} (ls : list (list A)) :
  Forall (fun l => l = []) ls -> List.concat ls = [].
Proof.
  induction 1 as [|l ls Hl _ IH]; simpl; [reflexivity|].
  now rewrite Hl, IH.
Qed.

Lemma image_patch_empty (image : ndarray)
    (from_row from_column row_width column_width : Z) :
  row_width = 0 \/ column_width = 0 \/
  Z.of_nat (List.length image) <= from_row \/
  Forall (fun row => Z.of_nat (List.length row) <= from_column) image ->
  List.concat (image_patch image from_row from_column
                 row_width column_width) = [].
Proof.
  unfold image_patch. intros [->|[->|[Hrow|Hcol]]].
  - now rewrite slice_no_width.
  - apply concat_all_nil, Forall_map, Forall_forall.
    intros row _. apply slice_no_width.
  - now rewrite slice_past_end.
  - apply concat_all_nil, Forall_map.
    eapply Forall_impl; [|apply Forall_slice; exact Hcol].
    intros row Hr. now apply slice_past_end.
Qed.

(** X14.  A patch without pixels (zero rows or zero columns asked for, or
    a corner at or beyond the bottom or right edge of the image) makes the
    maximum fail: the call raises [ValueError] and returns no image. *)
Theorem whitepatch_empty_patch (image : ndarray)
    (from_row from_column row_width column_width : Z) :
  row_width = 0 \/ column_width = 0 \/
  Z.of_nat (List.length image) <= from_row \/
  Forall (fun row => Z.of_nat (List.length row) <= from_column) image ->
  image_max image from_row from_column row_width column_width =
    Raise ValueError /\
  whitepatch_balancing image from_row from_column row_width column_width =
    Raise ValueError.
Proof.
  intros H. apply image_patch_empty in H.
  unfold whitepatch_balancing, image_max, max_axis01.
  rewrite H. split; reflexivity.
Qed.

Lemma whitepatch_empty_patch_witness :
  image_max sevens_image 1 0 1 2 = Raise ValueError /\
  whitepatch_balancing sevens_image 1 0 1 2 = Raise ValueError.
Proof.
  apply whitepatch_empty_patch. right. right. left. simpl. lia.
Defined.

Lemma balance_exact_white (p : Z) :
  uint8 p -> balance_exact p 255 = Some p.
Proof.
  intros [H0 H1]. unfold balance_exact. simpl (255 =? 0).
  rewrite Z.mul_comm, Z.div_mul by lia.
  now rewrite Z.min_r by lia.
Qed.

Lemma broadcast_white_pixel (px m : list Z) :
  Forall uint8 px ->
  Forall (fun d => d = 255) m ->
  List.length px = List.length m ->
  map (fun pm => balance_exact (fst pm) (snd pm)) (combine px m) =
  map Some px.
Proof.
  intros Hpx. revert m.
  induction Hpx as [|p px Hp _ IH]; intros m Hm Hlen.
  - reflexivity.
  - destruct Hm as [|d m Hd Hm]; [discriminate|]. subst d.
    simpl. rewrite balance_exact_white by assumption.
    f_equal. apply IH; [assumption | simpl in Hlen; lia].
Qed.

(** X15.  When the patch holds the value 255 in every channel (it contains
    pure white), balancing changes nothing: every entry of the balanced
    image is the entry of the image. *)
Theorem whitepatch_white_patch_identity (image : ndarray)
    (from_row from_column row_width column_width : Z) (m : list Z) :
  uint8_image image ->
  channels (List.length m) image ->
  max_axis01 (image_patch image from_row from_column
                row_width column_width) = Ok m ->
  Forall (fun d => d = 255) m ->
  whitepatch_balancing image from_row from_column row_width column_width =
    Ok (map (map (map Some)) image).
Proof.
  intros Himg Hch Hm Hwhite.
  rewrite (@whitepatch_balancing_exact image from_row from_column
             row_width column_width m Himg Hm).
  f_equal. unfold broadcast.
  unfold uint8_image, channels in *. rewrite Forall_forall in Himg, Hch.
  apply map_ext_in. intros row Hrow.
  specialize (Himg row Hrow). specialize (Hch row Hrow).
  rewrite Forall_forall in Himg, Hch.
  apply map_ext_in. intros px Hpx.
  apply broadcast_white_pixel; auto.
Qed.

Lemma whitepatch_white_patch_identity_witness :
  whitepatch_balancing [ [ [255; 255; 255]; [12; 200; 0] ] ] 0 0 1 1 =
    Ok (map (map (map Some)) [ [ [255; 255; 255]; [12; 200; 0] ] ]).
Proof.
  apply whitepatch_white_patch_identity with (m := [255; 255; 255]).
  - repeat constructor; unfold uint8; lia.
  - repeat constructor.
  - reflexivity.
  - repeat constructor.
Defined.

Lemma balance_exact_monotone (p p' m : Z) :
  0 <= p -> 0 < m -> p <= p' ->
  Z.min 255 (255 * p / m) <= Z.min 255 (255 * p' / m).
Proof.
  intros Hp Hm Hle.
  assert (H : 255 * p / m <= 255 * p' / m)
    by (apply Z.div_le_mono; lia).
  revert H. generalize (255 * p / m) (255 * p' / m). intros x y H. lia.
Qed.

(** X16.  Under a non-zero patch maximum [m], an entry of the balanced
    image grows with the entry of the image (the order of two values of a
    channel is never reversed); the value 0 stays 0, and the maximum and
    every value above it become 255. *)
Theorem balance_entry_order (p p' m : Z) :
  uint8 p -> uint8 p' -> uint8 m -> m <> 0 -> p <= p' ->
  (exists v v',
     balance_entry p m = Some v /\ balance_entry p' m = Some v' /\
     v <= v') /\
  balance_entry 0 m = Some 0 /\
  balance_entry m m = Some 255 /\
  (m <= p -> balance_entry p m = Some 255).
Proof.
  intros Hp Hp' Hm Hnz Hle.
  assert (H0 : uint8 0) by (unfold uint8; lia).
  rewrite !balance_entry_exact by assumption.
  unfold balance_exact. apply Z.eqb_neq in Hnz. rewrite Hnz.
  apply Z.eqb_neq in Hnz. unfold uint8 in *.
  split; [|split; [|split]].
  - do 2 eexists. split; [reflexivity|]. split; [reflexivity|].
    apply balance_exact_monotone; lia.
  - rewrite Z.mul_0_r, Z.div_0_l by assumption. reflexivity.
  - rewrite Z.div_mul by assumption. reflexivity.
  - intros Hmp.
    assert (H : 255 <= 255 * p / m)
      by (apply Z.div_le_lower_bound; lia).
    revert H. generalize (255 * p / m). intros x H.
    now rewrite Z.min_l by lia.
Qed.

Lemma balance_entry_order_witness :
  (exists v v',
     balance_entry 2 7 = Some v /\ balance_entry 5 7 = Some v' /\
     v <= v') /\
  balance_entry 0 7 = Some 0 /\
  balance_entry 7 7 = Some 255 /\
  (7 <= 2 -> balance_entry 2 7 = Some 255).
Proof.
  apply balance_entry_order; unfold uint8; lia.
Defined.

Lemma Forall2_map_self {A B} (R : A -> B -> Prop) (f : A -> B)
    (l : list A) :
  Forall (fun a => R a (f a)) l -> Forall2 R l (map f l).
Proof.
  induction 1; simpl; constructor; assumption.
Qed.

(** X17.  The balanced image has the shape of the image: as many rows, as
    many pixels in every row, as many channels in every pixel. *)
Theorem whitepatch_keeps_shape (image : ndarray)
    (from_row from_column row_width column_width : Z) (n : nat)
    (out : list (list (list (option Z)))) :
  channels n image ->
  whitepatch_balancing image from_row from_column row_width column_width =
    Ok out ->
  Forall2 (Forall2 (fun px opx => List.length opx = List.length px))
    image out.
Proof.
  intros Hch Hout.
  destruct (max_axis01 (image_patch image from_row from_column
                          row_width column_width)) as [m|e] eqn:Hm.
  - destruct (@whitepatch_balancing_unfold image from_row from_column
                row_width column_width m Hm) as [_ Hw].
    rewrite Hw in Hout. injection Hout as <-.
    assert (Hlen : List.length m = n).
    { eapply max_axis01_is_channel_max; [|exact Hm].
      now apply image_patch_keeps. }
    unfold broadcast. apply Forall2_map_self.
    unfold channels in Hch. eapply Forall_impl; [|exact Hch].
    intros row Hrow. apply Forall2_map_self.
    eapply Forall_impl; [|exact Hrow].
    intros px Hpx. cbv beta in Hpx.
    rewrite length_map, length_combine, Hpx, Hlen. apply Nat.min_id.
  - unfold whitepatch_balancing, image_max in Hout.
    rewrite Hm in Hout. discriminate.
Qed.

Lemma whitepatch_keeps_shape_witness :
  Forall2 (Forall2 (fun px opx => List.length opx = List.length px))
    sevens_image
    [ [ [Some 72; Some 255; Some 255]; [Some 255; Some 255; Some 255] ] ].
Proof.
  apply (@whitepatch_keeps_shape sevens_image 0 0 1 2 3%nat).
  - repeat constructor.
  - vm_compute. reflexivity.
Defined.

(* ------------------------------------------------------------------ *)
(** ** [convert_annotation]: the lines it refuses *)

Example convert_line_example :
  convert_line decimal_float decimal_int marine_names
    (text_of "4 0.5 0.5 0.25 0.3" ++ [10]%N) =
  Ok {| name := "shark"; xmin := 180; ymin := 125;
        xmax := 300; ymax := 234 |}.
Proof. vm_compute. reflexivity. Qed.

Lemma mapM_raises {A B} (f : A -> result B) (pre post : list A) (a : A)
    (e : exn) :
  Forall (fun x => exists b, f x = Ok b) pre ->
  f a = Raise e ->
  mapM f (pre ++ a :: post) = Raise e.
Proof.
  intros Hpre Ha. induction Hpre as [|x pre [b Hb] _ IH]; simpl.
  - now rewrite Ha.
  - now rewrite Hb, IH.
Qed.

Lemma split_blank (line : text) :
  Forall (fun c => is_space c = true) line -> split line = [].
Proof.
  intros H. unfold split. rewrite <- (app_nil_r line).
  now rewrite fields_go_separators.
Qed.

(** X19.  A line that does not hold exactly five fields separated by white
    space, a blank line in particular, stops the conversion with
    [ValueError] at the first such line; no object of the file is
    written, the ones of the lines before it included. *)
Theorem convert_annotation_bad_line
    (float : text -> result PrimFloat.float) (int : text -> result Z)
    (class_names : list string) (pre post : list text) (bad : text) :
  Forall (fun l => exists o, convert_line float int class_names l = Ok o)
    pre ->
  Forall (fun c => is_space c = true) bad \/
  List.length (split bad) <> 5%nat ->
  convert_annotation float int class_names (pre ++ bad :: post) =
  Raise ValueError.
Proof.
  intros Hpre Hbad.
  assert (Hlen : List.length (split bad) <> 5%nat).
  { destruct Hbad as [Hblank|Hlen]; [|assumption].
    rewrite split_blank by assumption. discriminate. }
  unfold convert_annotation.
  rewrite (@mapM_raises _ _ (convert_line float int class_names)
             pre post bad ValueError Hpre); [reflexivity|].
  unfold convert_line.
  destruct (split bad) as [|f1 [|f2 [|f3 [|f4 [|f5 [|f6 fs]]]]]];
    try reflexivity.
  simpl in Hlen. congruence.
Qed.

Lemma convert_annotation_bad_line_witness :
  convert_annotation decimal_float decimal_int marine_names
    ([text_of "4 0.5 0.5 0.25 0.3" ++ [10]%N] ++ [10]%N ::
     [text_of "0 0.1 0.1 0.1 0.1" ++ [10]%N]) =
  Raise ValueError.
Proof.
  apply convert_annotation_bad_line.
  - constructor; [|constructor]. eexists. vm_compute. reflexivity.
  - left. repeat constructor.
Defined.

(* ------------------------------------------------------------------ *)
(** ** White-patch balancing: a patch that leaves the image *)

Lemma slice_clipped {A} (l : list A) (a w : Z) :
  0 <= a -> 0 <= w ->
  slice l a (a + w) =
  slice l a (a + Z.min w (Z.of_nat (List.length l) - a)).
Proof.
  intros Ha Hw. unfold slice.
  assert (Hb : slice_bound (Z.of_nat (List.length l)) (a + w) =
               slice_bound (Z.of_nat (List.length l))
                 (a + Z.min w (Z.of_nat (List.length l) - a))).
  { unfold slice_bound.
    destruct (a + w <? 0) eqn:H1; [apply Z.ltb_lt in H1; lia|].
    destruct (a + Z.min w (Z.of_nat (List.length l) - a) <? 0) eqn:H2;
      [apply Z.ltb_lt in H2; lia | lia]. }
  now rewrite Hb.
Qed.

Lemma image_patch_clipped (image : ndarray)
    (from_row from_column row_width column_width : Z) (columns : nat) :
  Forall (fun row => List.length row = columns) image ->
  0 <= from_row -> 0 <= from_column ->
  0 <= row_width -> 0 <= column_width ->
  image_patch image from_row from_column row_width column_width =
  image_patch image from_row from_column
    (Z.min row_width (Z.of_nat (List.length image) - from_row))
    (Z.min column_width (Z.of_nat columns - from_column)).
Proof.
  intros Hcols Hr Hc Hrw Hcw. unfold image_patch.
  rewrite <- slice_clipped by assumption.
  apply map_ext_in. intros row Hrow.
  assert (Hlen : List.length row = columns).
  { assert (Hall : Forall (fun row => List.length row = columns)
                     (slice image from_row (from_row + row_width)))
      by now apply Forall_slice.
    rewrite Forall_forall in Hall. now apply Hall. }
  rewrite <- Hlen. now apply slice_clipped.
Qed.

(** X20.  The part of the patch that leaves the image is ignored: with a
    corner inside or outside the image and non-negative sizes, the call
    gives what it gives for the patch cut at the bottom and right edges of
    the image. *)
Theorem whitepatch_patch_clipped (image : ndarray)
    (from_row from_column row_width column_width : Z) (columns : nat) :
  Forall (fun row => List.length row = columns) image ->
  0 <= from_row -> 0 <= from_column ->
  0 <= row_width -> 0 <= column_width ->
  whitepatch_balancing image from_row from_column row_width column_width =
  whitepatch_balancing image from_row from_column
    (Z.min row_width (Z.of_nat (List.length image) - from_row))
    (Z.min column_width (Z.of_nat columns - from_column)).
Proof.
  intros Hcols Hr Hc Hrw Hcw. unfold whitepatch_balancing, image_max.
  now rewrite (image_patch_clipped Hcols Hr Hc Hrw Hcw).
Qed.

Lemma whitepatch_patch_clipped_witness :
  whitepatch_balancing sevens_image 0 1 50 70 =
  whitepatch_balancing sevens_image 0 1
    (Z.min 50 (Z.of_nat (List.length sevens_image) - 0))
    (Z.min 70 (Z.of_nat 2 - 1)).
Proof.
  apply whitepatch_patch_clipped; try lia. repeat constructor.
Defined.
